(** * Whoa-Scope settings manager: a shallow embedding of
    [Software/settings_manager.py] and the properties of its specification.

    The file follows the module top to bottom: Python values and exceptions,
    the string and path helpers the font scanner calls, the font scanner,
    the default settings, the backing-store interface the manager talks to,
    and the [SettingsManager] class itself as a state-and-exception monad. *)

From Stdlib Require Import Floats.SpecFloat.
From stdpp Require Import gmap strings list fin_maps.

Open Scope string_scope.
Set Warnings "-register-all".

(** ** Python values and exceptions *)

(** The values that settings and JSON documents hold.  A Python [float] is an
    IEEE binary64 number, kept here in its sign/mantissa/exponent form. *)
Inductive pyval : Type :=
  | PNone
  | PBool (b : bool)
  | PInt (z : Z)
  | PFloat (f : spec_float)
  | PStr (s : string)
  | PList (l : list pyval)
  | PDict (d : gmap string pyval).

(** Instances of [Exception]; everything here is caught by a bare
    [except Exception:] clause. *)
Inductive exn : Type :=
  | KeyError (key : string)
  | AttributeError (attr : string)
  | TypeError
  | OSError
  | OtherException (name : string).

(** The outcome of a call: a returned value or a raised exception. *)
Inductive result (A : Type) : Type :=
  | Ok (a : A)
  | Raise (e : exn).
Arguments Ok {A} a.
Arguments Raise {A} e.

Definition result_bind {A B} (r : result A) (k : A → result B) : result B :=
  match r with
  | Ok a => k a
  | Raise e => Raise e
  end.

(** [x is None] *)
Definition is_None (v : pyval) : bool :=
  match v with
  | PNone => true
  | _ => false
  end.

(** [type(v)], as far as the values above distinguish types. *)
Inductive pytype : Type :=
  | TNoneType | TBool | TInt | TFloat | TStr | TList | TDict.

Definition type_of (v : pyval) : pytype :=
  match v with
  | PNone => TNoneType
  | PBool _ => TBool
  | PInt _ => TInt
  | PFloat _ => TFloat
  | PStr _ => TStr
  | PList _ => TList
  | PDict _ => TDict
  end.

Definition pytype_eqb (a b : pytype) : bool :=
  match a, b with
  | TNoneType, TNoneType | TBool, TBool | TInt, TInt | TFloat, TFloat
  | TStr, TStr | TList, TList | TDict, TDict => true
  | _, _ => false
  end.

(** [obj.get(field, default)] on an arbitrary value: only a dict has the
    method, anything else raises [AttributeError]. *)
Definition py_get (obj : pyval) (field : string) (dflt : pyval) : result pyval :=
  match obj with
  | PDict d => Ok (default dflt (d !! field))
  | _ => Raise (AttributeError "get")
  end.

(** The float literal [1.0]. *)
Definition float_one : spec_float := S754_finite false 4503599627370496 (-52).

(** ** Insertion-ordered dictionaries

    [AVAILABLE_FONTS] and [DEFAULT_SETTINGS] are iterated, and the first key
    of the former is observed, so they keep Python's insertion order. *)
Module odict.

Definition t (V : Type) : Type := list (string * V).

(** [d.get(k)] *)
Fixpoint get {V} (k : string) (d : t V) : option V :=
  match d with
  | [] => None
  | (k', v) :: d' => if String.eqb k k' then Some v else get k d'
  end.

(** [d[k] = v]: an existing key keeps its position, a new one goes last. *)
Fixpoint set {V} (k : string) (v : V) (d : t V) : t V :=
  match d with
  | [] => [(k, v)]
  | (k', v') :: d' =>
      if String.eqb k k' then (k', v) :: d' else (k', v') :: set k v d'
  end.

(** [list(d.keys())] *)
Definition keys {V} (d : t V) : list string := map fst d.

(** [d.copy()] into the unordered in-memory record. *)
Definition copy {V} (d : t V) : gmap string V := list_to_map d.

End odict.

(** ** [str] methods

    Strings are sequences of code points below 256. *)
Module pystr.

(** [s.startswith(p)] *)
Fixpoint startswith (p s : string) : bool :=
  match p, s with
  | EmptyString, _ => true
  | String a p', String b s' => Ascii.eqb a b && startswith p' s'
  | String _ _, EmptyString => false
  end.

Fixpoint replace_go (old new : string) (skip : nat) (s : string) : string :=
  match s with
  | EmptyString =>
      match old with EmptyString => new | _ => EmptyString end
  | String c s' =>
      match skip with
      | S n => replace_go old new n s'
      | O =>
          if startswith old s then
            match old with
            | EmptyString => new +:+ String c (replace_go old new 0 s')
            | String _ old' =>
                new +:+ replace_go old new (String.length old') s'
            end
          else String c (replace_go old new 0 s')
      end
  end.

(** [s.replace(old, new)]: every non-overlapping occurrence, left to
    right. *)
Definition replace (old new s : string) : string := replace_go old new 0 s.

(** [c.isspace()] for a code point below 256. *)
Definition isspace (c : Ascii.ascii) : bool :=
  let n := Ascii.nat_of_ascii c in
  (Nat.leb 9 n && Nat.leb n 13) || (Nat.leb 28 n && Nat.leb n 32)
  || Nat.eqb n 133 || Nat.eqb n 160.

Fixpoint lstrip (s : string) : string :=
  match s with
  | EmptyString => EmptyString
  | String c s' => if isspace c then lstrip s' else s
  end.

Fixpoint rstrip (s : string) : string :=
  match s with
  | EmptyString => EmptyString
  | String c s' =>
      match rstrip s' with
      | EmptyString => if isspace c then EmptyString else String c EmptyString
      | r => String c r
      end
  end.

(** [s.strip()] *)
Definition strip (s : string) : string := rstrip (lstrip s).

(** [s.rfind(c)] for a one-character needle; [None] stands for [-1]. *)
Fixpoint rfind (c : Ascii.ascii) (s : string) : option nat :=
  match s with
  | EmptyString => None
  | String a s' =>
      match rfind c s' with
      | Some i => Some (S i)
      | None => if Ascii.eqb a c then Some 0 else None
      end
  end.

(** [s[:n]] and [s[n:]] *)
Fixpoint take (n : nat) (s : string) : string :=
  match n, s with
  | S n', String c s' => String c (take n' s')
  | _, _ => EmptyString
  end.

Fixpoint drop (n : nat) (s : string) : string :=
  match n, s with
  | S n', String _ s' => drop n' s'
  | _, _ => s
  end.

(** [any(ch != c for ch in s)] *)
Fixpoint any_other (c : Ascii.ascii) (s : string) : bool :=
  match s with
  | EmptyString => false
  | String a s' => negb (Ascii.eqb a c) || any_other c s'
  end.

(** [bool(s)] *)
Definition truthy (s : string) : bool :=
  match s with EmptyString => false | _ => true end.

(** [sub in s] *)
Fixpoint contains (sub s : string) : bool :=
  startswith sub s ||
  match s with
  | EmptyString => false
  | String _ s' => contains sub s'
  end.

(** [s.rstrip(c)] for a one-character argument. *)
Fixpoint rstrip_char (c : Ascii.ascii) (s : string) : string :=
  match s with
  | EmptyString => EmptyString
  | String a s' =>
      match rstrip_char c s' with
      | EmptyString => if Ascii.eqb a c then EmptyString else String a EmptyString
      | r => String a r
      end
  end.

(** [s == c * len(s)] *)
Fixpoint all_char (c : Ascii.ascii) (s : string) : bool :=
  match s with
  | EmptyString => true
  | String a s' => Ascii.eqb a c && all_char c s'
  end.

(** [c in s] for a one-character [c]. *)
Fixpoint occurs (c : Ascii.ascii) (s : string) : bool :=
  match s with
  | EmptyString => false
  | String a s' => Ascii.eqb a c || occurs c s'
  end.

End pystr.

(** ** [os.path] (POSIX flavour) *)
Module os_path.

Definition slash : Ascii.ascii := Ascii.ascii_of_nat 47.   (* [sep] *)
Definition dot : Ascii.ascii := Ascii.ascii_of_nat 46.     (* [extsep] *)

(** [os.path.join(a, b)] *)
Definition join (a b : string) : string :=
  if pystr.startswith "/" b then b
  else if negb (pystr.truthy a) then b
  else
    match pystr.rfind slash a with
    | Some i => if Nat.eqb (S i) (String.length a) then a +:+ b else a +:+ "/" +:+ b
    | None => a +:+ "/" +:+ b
    end.

(** [os.path.basename(p)] *)
Definition basename (p : string) : string :=
  match pystr.rfind slash p with
  | Some i => pystr.drop (S i) p
  | None => p
  end.

(** [os.path.splitext(p)]: the extension starts at the last dot of the
    last component, unless only dots precede it there. *)
Definition splitext (p : string) : string * string :=
  let filenameIndex :=
    match pystr.rfind slash p with Some i => S i | None => 0 end in
  match pystr.rfind dot p with
  | Some dotIndex =>
      if Nat.leb filenameIndex dotIndex
         && pystr.any_other dot
              (pystr.take (dotIndex - filenameIndex) (pystr.drop filenameIndex p))
      then (pystr.take dotIndex p, pystr.drop dotIndex p)
      else (p, "")
  | None => (p, "")
  end.

(** [os.path.dirname(p)]: everything up to the last separator, without the
    trailing separators unless nothing else is left. *)
Definition dirname (p : string) : string :=
  let head :=
    match pystr.rfind slash p with
    | Some i => pystr.take (S i) p
    | None => EmptyString
    end in
  if pystr.truthy head && negb (pystr.all_char slash head)
  then pystr.rstrip_char slash head
  else head.

End os_path.

(** ** The font scanner *)

(** What the scanner observes of the process and the file system. *)
Record Host : Type := {
  os_getcwd : result string;          (* [os.getcwd()] *)
  os_path_isdir : string → bool;      (* [os.path.isdir] *)
  sys_frozen : bool;                  (* truth of [getattr(sys, 'frozen', False)] *)
  sys_MEIPASS : option string;        (* [sys._MEIPASS], when the attribute exists *)
  glob_glob : string → list string;   (* [glob.glob], in the order it yields *)
}.

Definition get_fonts_directory (h : Host) : result (option string) :=
  result_bind (os_getcwd h) (λ cwd,
    let fonts_dir := os_path.join cwd "fonts" in
    if os_path_isdir h fonts_dir then Ok (Some fonts_dir)
    else if sys_frozen h then
      match sys_MEIPASS h with
      | None => Raise (AttributeError "_MEIPASS")
      | Some meipass =>
          let fonts_dir := os_path.join meipass "fonts" in
          if os_path_isdir h fonts_dir then Ok (Some fonts_dir) else Ok None
      end
    else Ok None).

Definition font_extensions : list string := ["*.ttf"; "*.otf"; "*.TTF"; "*.OTF"].

Definition noise_suffixes : list string :=
  ["Regular"; "VariableFont wdth,wght"; "VariableFont"].

(** Lines 41-48: the display name of one matched path. *)
Definition display_name_of (font_path : string) : string :=
  let filename := os_path.basename font_path in
  let name := fst (os_path.splitext filename) in
  let display_name := pystr.replace "_" " " (pystr.replace "-" " " name) in
  foldl (λ display_name suffix, pystr.strip (pystr.replace suffix "" display_name))
        display_name noise_suffixes.

Definition scan_available_fonts (h : Host) : result (odict.t string) :=
  result_bind (get_fonts_directory h) (λ fonts_dir,
    match fonts_dir with
    | Some fonts_dir =>
        if pystr.truthy fonts_dir && os_path_isdir h fonts_dir then
          Ok (foldl (λ fonts ext,
                foldl (λ fonts font_path,
                         odict.set (display_name_of font_path) font_path fonts)
                      fonts (glob_glob h (os_path.join fonts_dir ext)))
              [] font_extensions)
        else Ok []
    | None => Ok []
    end).

(** [get_font_path(font_name)] *)
Definition get_font_path (AVAILABLE_FONTS : odict.t string) (font_name : string)
  : option string :=
  odict.get font_name AVAILABLE_FONTS.

(** ** Default settings *)

(** [list(AVAILABLE_FONTS.keys())[0] if AVAILABLE_FONTS else 'Roboto'] *)
Definition default_font (AVAILABLE_FONTS : odict.t string) : string :=
  match odict.keys AVAILABLE_FONTS with
  | k :: _ => k
  | [] => "Roboto"
  end.

Definition DEFAULT_SETTINGS (AVAILABLE_FONTS : odict.t string) : odict.t pyval :=
  [ ("font_name", PStr (default_font AVAILABLE_FONTS));
    ("font_scale", PFloat float_one);
    ("launch_maximized", PBool false) ].

(** Lines 55-63, run when the module is imported: the catalog and the
    defaults built from it. *)
Definition load_module (h : Host) : result (odict.t string * odict.t pyval) :=
  result_bind (scan_available_fonts h) (λ AVAILABLE_FONTS,
    Ok (AVAILABLE_FONTS, DEFAULT_SETTINGS AVAILABLE_FONTS)).

(** A directory with the two files of the specification's example. *)
Definition example_host : Host := {|
  os_getcwd := Ok "/app";
  os_path_isdir := λ p, String.eqb p "/app/fonts";
  sys_frozen := false;
  sys_MEIPASS := None;
  glob_glob := λ pat,
    if String.eqb pat "/app/fonts/*.ttf" then ["/app/fonts/Inter-Regular.ttf"]
    else if String.eqb pat "/app/fonts/*.otf"
         then ["/app/fonts/Some_Font-VariableFont.otf"]
    else [];
|}.

(** A host without any [fonts] directory. *)
Definition bare_host : Host := {|
  os_getcwd := Ok "/app";
  os_path_isdir := λ _, false;
  sys_frozen := false;
  sys_MEIPASS := None;
  glob_glob := λ _, [];
|}.

(** ** Containers as Python sees them *)

(** [key in container] for a string [key]: membership for a dict, an equal
    element for a list, a substring for a string; any other value is not
    iterable. *)
Definition py_contains (container : pyval) (key : string) : result bool :=
  match container with
  | PDict d => Ok (bool_decide (is_Some (d !! key)))
  | PList l =>
      Ok (existsb (λ v, match v with PStr s => String.eqb s key | _ => false end) l)
  | PStr s => Ok (pystr.contains key s)
  | _ => Raise TypeError
  end.

(** [container[key]] for a string [key]: only a dict can be indexed by a
    string. *)
Definition py_getitem (container : pyval) (key : string) : result pyval :=
  match container with
  | PDict d =>
      match d !! key with
      | Some v => Ok v
      | None => Raise (KeyError key)
      end
  | _ => Raise TypeError
  end.

(** [container[key] = value] for a string [key]: the container afterwards,
    or the exception. *)
Definition py_setitem (container : pyval) (key : string) (value : pyval)
  : result pyval :=
  match container with
  | PDict d => Ok (PDict (<[key := value]> d))
  | _ => Raise TypeError
  end.

(** ** The backing store

    The manager only ever calls [exists], [get] and [put] on the object it
    keeps in [_store], and [initialize] builds that object from the settings
    file.  The interface below is what it relies on; each of the three calls
    may raise.  [store_reopen] stands for building a new store object over
    the file behind an existing one. *)
Class AbstractStore (S : Type) : Type := {
  (** [store.exists(key)]: the answer, or an exception. *)
  store_exists : S → string → result bool;
  (** [store.get(key)]: the record stored under [key], or an exception. *)
  store_get : S → string → result pyval;
  (** [store.put(key, **values)]: the store afterwards, and the exception
      raised if the write failed. *)
  store_put : S → string → gmap string pyval → S * option exn;
  (** A fresh store object over the same backing file. *)
  store_reopen : S → result S;
}.

(** What a key/value store promises about writes that succeed: the written
    record is there, the others are as before, a store that took a write
    answers [exists] for every key, and the file is in step with it. *)
Class StoreLaws (S : Type) `{AbstractStore S} : Prop := {
  put_exists : ∀ (s s' : S) k r,
    store_put s k r = (s', None) → store_exists s' k = Ok true;
  put_answers : ∀ (s s' : S) k r k',
    store_put s k r = (s', None) → ∃ b, store_exists s' k' = Ok b;
  put_get : ∀ (s s' : S) k r,
    store_put s k r = (s', None) → store_get s' k = Ok (PDict r);
  put_frame : ∀ (s s' : S) k r k',
    store_put s k r = (s', None) → k' ≠ k →
    store_exists s' k' = store_exists s k' ∧ store_get s' k' = store_get s k';
  reopen_synced : ∀ (s s' s'' : S) k r,
    store_put s k r = (s', None) → store_reopen s' = Ok s'' →
    ∀ k', store_exists s'' k' = store_exists s' k'
          ∧ store_get s'' k' = store_get s' k';
}.

(** The JSON-backed store of [kivy.storage.jsonstore], an external library,
    as the specification describes it: a document mapping each key to an
    object wrapping the value.  The file may hold any JSON value; the store
    takes what it parses as its document. *)
Module JsonStore.

(** Modelled from the spec: the store object.  It keeps the document in
    [_data] and rewrites the whole file on every [put]; [on_disk] is the
    file's content and [writable] says whether rewriting it succeeds. *)
Record t : Type := {
  _data : pyval;
  on_disk : pyval;
  writable : bool;
}.

(** Modelled from the spec: [exists(key)], that is [key in self._data]. *)
Definition exists_ (s : t) (key : string) : result bool :=
  py_contains (_data s) key.

(** Modelled from the spec: [get(key)], that is [self._data[key]]. *)
Definition get (s : t) (key : string) : result pyval :=
  py_getitem (_data s) key.

(** Modelled from the spec: [put(key, **values)] assigns
    [self._data[key] = values], then writes the document out; a disk that
    refuses the write makes it raise with the file as it was. *)
Definition put (s : t) (key : string) (values : gmap string pyval)
  : t * option exn :=
  match py_setitem (_data s) key (PDict values) with
  | Raise e => (s, Some e)
  | Ok data =>
      if writable s
      then ({| _data := data; on_disk := data; writable := true |}, None)
      else ({| _data := data; on_disk := on_disk s; writable := false |},
            Some OSError)
  end.

(** Modelled from the spec: [JsonStore(filename)] over the same file, which
    reads the document back. *)
Definition reopen (s : t) : result t :=
  Ok {| _data := on_disk s; on_disk := on_disk s; writable := writable s |}.

(** Modelled from the spec: a store just opened over a file holding the
    object [doc]. *)
Definition of_file (doc : gmap string pyval) (writable : bool) : t :=
  {| _data := PDict doc; on_disk := PDict doc; writable := writable |}.

(** Modelled from the spec: a store just opened over a file holding any
    JSON value. *)
Definition of_document (doc : pyval) (writable : bool) : t :=
  {| _data := doc; on_disk := doc; writable := writable |}.

End JsonStore.

#[export] Instance JsonStore_store : AbstractStore JsonStore.t := {|
  store_exists := JsonStore.exists_;
  store_get := JsonStore.get;
  store_put := JsonStore.put;
  store_reopen := JsonStore.reopen;
|}.

(** ** The system the settings path is resolved in *)

(** What [_get_settings_path] observes and does.  [os.path] differs between
    platforms, so its two functions are part of the system. *)
Record System : Type := {
  platform : string;                       (* [kivy.utils.platform] *)
  os_environ : gmap string string;         (* [os.environ] *)
  expanduser_home : string;                (* [os.path.expanduser('~')] *)
  path_join : string → string → string;    (* [os.path.join] *)
  path_dirname : string → string;          (* [os.path.dirname] *)
  os_makedirs : string → option exn;       (* what [os.makedirs(d, exist_ok=True)] raises *)
}.

(** ** The settings manager *)
Module SettingsManager.
Section methods.

Context {S : Type} `{AbstractStore S}.

(** The font catalog the module was loaded with. *)
Variable AVAILABLE_FONTS : odict.t string.

(** The attributes of the singleton.  [_store] and [_settings] do not
    exist between [__new__] and the first [__init__]; they are shown as
    [None] and the empty record there. *)
Record t : Type := {
  _initialized : bool;
  _store : option S;
  _settings : gmap string pyval;
}.

(** A method call: it may change [self] and either returns or raises.
    Changes made before an exception stay. *)
Definition M (A : Type) : Type := t → t * result A.

Definition ret {A} (a : A) : M A := λ self, (self, Ok a).

Definition bind {A B} (c : M A) (k : A → M B) : M B := λ self,
  match c self with
  | (self', Ok a) => k a self'
  | (self', Raise e) => (self', Raise e)
  end.

Definition lift {A} (r : result A) : M A := λ self, (self, r).

Definition set_store (store : option S) : M unit := λ self,
  ({| _initialized := _initialized self; _store := store;
      _settings := _settings self |}, Ok tt).

(** [self._settings[key] = value] *)
Definition setitem_settings (key : string) (value : pyval) (self : t) : t :=
  {| _initialized := _initialized self; _store := _store self;
     _settings := <[key := value]> (_settings self) |}.

(** [__new__], given the class attribute [_instance]. *)
Definition __new__ (_instance : option t) : t :=
  match _instance with
  | None => {| _initialized := false; _store := None; _settings := ∅ |}
  | Some self => self
  end.

Definition __init__ : M unit := λ self,
  if _initialized self then (self, Ok tt)
  else ({| _initialized := true; _store := None;
           _settings := odict.copy (DEFAULT_SETTINGS AVAILABLE_FONTS) |},
        Ok tt).

(** [SettingsManager()] *)
Definition construct (_instance : option t) : t :=
  fst (__init__ (__new__ _instance)).

(** [self._settings[key] = value] as a step of a method. *)
Definition setitem (key : string) (value : pyval) : M unit := λ self,
  (setitem_settings key value self, Ok tt).

(** A [for] loop: the body runs for each item in turn, and an exception
    leaving the body ends the loop. *)
Fixpoint for_each {A} (body : A → M unit) (items : list A) : M unit :=
  match items with
  | [] => ret tt
  | item :: rest => bind (body item) (λ _, for_each body rest)
  end.

(** One turn of the loop in [_load_settings]: the [exists] test stands
    outside the [try], the read and the [get('value', ...)] inside it. *)
Definition load_one (store : S) (item : string * pyval) : M unit :=
  let '(key, default_value) := item in
  bind (lift (store_exists store key)) (λ found : bool,
    if found then
      match result_bind (store_get store key)
                        (λ stored, py_get stored "value" default_value) with
      | Ok value => setitem key value
      | Raise _ => setitem key default_value
      end
    else setitem key default_value).

Definition _load_settings : M unit := λ self,
  match _store self with
  | None => (self, Ok tt)
  | Some store =>
      for_each (load_one store) (DEFAULT_SETTINGS AVAILABLE_FONTS) self
  end.

(** [initialize()]; [opening] is the outcome of lines 119-120, resolving
    the settings path and building the [JsonStore] over it. *)
Definition initialize (opening : result S) : M unit :=
  bind (lift opening) (λ store,
  bind (set_store (Some store)) (λ _,
  _load_settings)).

Definition _save_setting (key : string) (value : pyval) : M unit := λ self,
  match _store self with
  | None => (self, Ok tt)
  | Some store =>
      let '(store', failure) := store_put store key {[ "value" := value ]} in
      ({| _initialized := _initialized self; _store := Some store';
          _settings := _settings self |},
       match failure with Some e => Raise e | None => Ok tt end)
  end.

(** [get(key, default=None)]; an omitted [default] is [PNone]. *)
Definition get (key : string) (dflt : pyval) : M pyval := λ self,
  (self,
   Ok (default (if negb (is_None dflt) then dflt
                else default PNone (odict.get key (DEFAULT_SETTINGS AVAILABLE_FONTS)))
               (_settings self !! key))).

Definition set (key : string) (value : pyval) : M unit :=
  bind (λ self, (setitem_settings key value self, Ok tt)) (λ _,
  _save_setting key value).

(** The typed properties. *)
Definition font_name : M pyval := get "font_name" PNone.
Definition font_name_setter (value : pyval) : M unit := set "font_name" value.
Definition font_scale : M pyval := get "font_scale" PNone.
Definition font_scale_setter (value : pyval) : M unit := set "font_scale" value.
Definition launch_maximized : M pyval := get "launch_maximized" PNone.
Definition launch_maximized_setter (value : pyval) : M unit :=
  set "launch_maximized" value.

(** [_get_settings_path()] *)
Definition _get_settings_path (sys : System) : result string :=
  let join := path_join sys in
  let settings_dir :=
    if String.eqb (platform sys) "win" then
      let base_dir := default (expanduser_home sys) (os_environ sys !! "APPDATA") in
      join base_dir "WhoaScope"
    else if String.eqb (platform sys) "macosx" then
      join (join (join (expanduser_home sys) "Library") "Application Support")
           "WhoaScope"
    else if String.eqb (platform sys) "linux" then
      let xdg_config :=
        default (join (expanduser_home sys) ".config")
                (os_environ sys !! "XDG_CONFIG_HOME") in
      join xdg_config "WhoaScope"
    else join (expanduser_home sys) ".whoascope" in
  match os_makedirs sys settings_dir with
  | Some e => Raise e
  | None => Ok (join settings_dir "settings.json")
  end.

(** [get_settings_directory()] *)
Definition get_settings_directory (sys : System) : result string :=
  result_bind (_get_settings_path sys) (λ path, Ok (path_dirname sys path)).

(** [initialize()] with lines 119-120 spelled out: [JsonStore] is the
    constructor applied to the resolved path. *)
Definition initialize_in (sys : System) (JsonStore : string → result S)
  : M unit :=
  initialize (result_bind (_get_settings_path sys) JsonStore).

(** The operations a client can perform on the singleton. *)
Inductive call : Type :=
  | Construct
  | Initialize (opening : result S)
  | Get (key : string) (dflt : pyval)
  | Set_ (key : string) (value : pyval)
  | FontName
  | SetFontName (value : pyval)
  | FontScale
  | SetFontScale (value : pyval)
  | LaunchMaximized
  | SetLaunchMaximized (value : pyval).

Definition returning_None (c : M unit) : M pyval := bind c (λ _, ret PNone).

Definition run (c : call) : M pyval :=
  match c with
  | Construct => returning_None __init__
  | Initialize opening => returning_None (initialize opening)
  | Get key dflt => get key dflt
  | Set_ key value => returning_None (set key value)
  | FontName => font_name
  | SetFontName value => returning_None (font_name_setter value)
  | FontScale => font_scale
  | SetFontScale value => returning_None (font_scale_setter value)
  | LaunchMaximized => launch_maximized
  | SetLaunchMaximized value => returning_None (launch_maximized_setter value)
  end.

End methods.
End SettingsManager.

(** ** Vocabulary of the specification *)
Section vocabulary.

Context {S : Type} `{AbstractStore S}.
Variable AVAILABLE_FONTS : odict.t string.

(** [k] is a key of Default Settings. *)
Definition recognized (k : string) : Prop :=
  k ∈ odict.keys (DEFAULT_SETTINGS AVAILABLE_FONTS).

(** [v] has the type of the default for [k]. *)
Definition expected_type (k : string) (v : pyval) : bool :=
  match odict.get k (DEFAULT_SETTINGS AVAILABLE_FONTS) with
  | Some d => pytype_eqb (type_of v) (type_of d)
  | None => false
  end.

(** The value the specification prescribes for key [k] with default
    [dflt] when loading from [store]: the stored value, or the default
    when the key, the record's value field or a readable record is
    missing. *)
Definition spec_loaded_value (store : S) (k : string) (dflt : pyval) : pyval :=
  match store_exists store k with
  | Ok true =>
      match store_get store k with
      | Ok (PDict record) =>
          match record !! "value" with
          | Some v => v
          | None => dflt
          end
      | Ok _ => dflt
      | Raise _ => dflt
      end
  | Ok false => dflt
  | Raise _ => dflt
  end.

(** The store's [exists] test answers for every recognized key. *)
Definition loadable (store : S) : Prop :=
  ∀ k, recognized k → ∃ found, store_exists store k = Ok found.

(** Every recognized key has an entry in the in-memory record. *)
Definition present (self : SettingsManager.t (S:=S)) : Prop :=
  ∀ k, recognized k → is_Some (SettingsManager._settings self !! k).

(** [get(k)] does not yield [None] for any recognized key. *)
Definition resolvable (self : SettingsManager.t (S:=S)) : Prop :=
  ∀ k, recognized k →
    snd (SettingsManager.get AVAILABLE_FONTS k PNone self) ≠ Ok PNone.

(** A store holds no [None] under the value field of a recognized key. *)
Definition no_null_values (store : S) : bool :=
  forallb (λ k,
    match store_exists store k with
    | Ok true =>
        match store_get store k with
        | Ok (PDict record) =>
            match record !! "value" with
            | Some v => negb (is_None v)
            | None => true
            end
        | _ => true
        end
    | _ => true
    end) (odict.keys (DEFAULT_SETTINGS AVAILABLE_FONTS)).

(** A call that puts no [None] into the record. *)
Definition none_free (c : SettingsManager.call (S:=S)) : bool :=
  match c with
  | SettingsManager.Initialize (Ok store) => no_null_values store
  | SettingsManager.Set_ _ value
  | SettingsManager.SetFontName value
  | SettingsManager.SetFontScale value
  | SettingsManager.SetLaunchMaximized value => negb (is_None value)
  | _ => true
  end.

(** What a call can do to the entry of key [k]: leave it, overwrite it
    with the value being set, reload it from the store, or reset it to its
    default. *)
Inductive entry_after (c : SettingsManager.call (S:=S))
    (self : SettingsManager.t (S:=S)) (k : string) : option pyval → Prop :=
  | entry_kept : entry_after c self k (SettingsManager._settings self !! k)
  | entry_set value :
      (none_free c = true → is_None value = false) →
      entry_after c self k (Some value)
  | entry_loaded store dv :
      c = SettingsManager.Initialize (Ok store) →
      odict.get k (DEFAULT_SETTINGS AVAILABLE_FONTS) = Some dv →
      entry_after c self k (Some (spec_loaded_value store k dv))
  | entry_reset :
      entry_after c self k (odict.get k (DEFAULT_SETTINGS AVAILABLE_FONTS)).

End vocabulary.

(** ** Vocabulary for the scanner and for sequences of calls *)

(** The two separators the scanner turns into spaces. *)
Definition dash : Ascii.ascii := Ascii.ascii_of_nat 45.
Definition underscore : Ascii.ascii := Ascii.ascii_of_nat 95.

(** The paths the four globs yield for a font directory, in scan order. *)
Definition font_matches (h : Host) (fonts_dir : string) : list string :=
  concat (map (λ ext, glob_glob h (os_path.join fonts_dir ext)) font_extensions).

(** The last of [paths] whose display name is [name]. *)
Fixpoint last_match (name : string) (paths : list string) : option string :=
  match paths with
  | [] => None
  | path :: rest =>
      match last_match name rest with
      | Some later => Some later
      | None =>
          if String.eqb (display_name_of path) name then Some path else None
      end
  end.

(** The catalog after the assignments [fonts[display_name] = font_path] for
    [paths], in order. *)
Definition assign_all (paths : list string) (fonts : odict.t string)
  : odict.t string :=
  foldl (λ fonts font_path, odict.set (display_name_of font_path) font_path fonts)
        fonts paths.

Section vocabulary_calls.

Context {S : Type} `{AbstractStore S}.
Variable AVAILABLE_FONTS : odict.t string.

(** The singleton after a sequence of calls, whatever each returned or
    raised. *)
Definition run_all (calls : list (SettingsManager.call (S:=S)))
    (self : SettingsManager.t (S:=S)) : SettingsManager.t (S:=S) :=
  foldl (λ self c, fst (SettingsManager.run AVAILABLE_FONTS c self)) self calls.

(** The record agrees with what loading from the open store gives, on every
    recognized key, and the store answers [exists] for each of them. *)
Definition in_sync (self : SettingsManager.t (S:=S)) : Prop :=
  ∃ store, SettingsManager._store self = Some store ∧
    loadable AVAILABLE_FONTS store ∧
    ∀ k dv, odict.get k (DEFAULT_SETTINGS AVAILABLE_FONTS) = Some dv →
      SettingsManager._settings self !! k = Some (spec_loaded_value store k dv).

End vocabulary_calls.

(** A POSIX system on Linux with the given environment. *)
Definition linux_system (environ : gmap string string) : System := {|
  platform := "linux";
  os_environ := environ;
  expanduser_home := "/home/ada";
  path_join := os_path.join;
  path_dirname := os_path.dirname;
  os_makedirs := λ _, None;
|}.

(** A host whose font directory holds three files, two of which share a
    display name. *)
Definition crowded_host : Host := {|
  os_getcwd := Ok "/app";
  os_path_isdir := λ p, String.eqb p "/app/fonts";
  sys_frozen := false;
  sys_MEIPASS := None;
  glob_glob := λ pat,
    if String.eqb pat "/app/fonts/*.ttf"
    then ["/app/fonts/Inter-Regular.ttf"; "/app/fonts/Lato_Regular.ttf"]
    else if String.eqb pat "/app/fonts/*.otf" then ["/app/fonts/Inter.otf"]
    else [];
|}.

(** ** Concrete managers used in the examples *)

(** A writable settings file that holds no key yet. *)
Definition empty_store : JsonStore.t := JsonStore.of_file ∅ true.

(** A settings file written by hand: a proper record for [font_scale], a
    record without value field for [launch_maximized], a bare number where
    the record of [font_name] should be, and a key nobody asked for. *)
Definition float_two : spec_float := S754_finite false 4503599627370496 (-51).

Definition edited_store : JsonStore.t :=
  JsonStore.of_file
    (<["font_scale" := PDict {[ "value" := PFloat float_two ]}]>
       (<["launch_maximized" := PDict {[ "comment" := PStr "later" ]}]>
          (<["font_name" := PInt 5]>
             {[ "theme" := PDict {[ "value" := PStr "dark" ]} ]})))
    true.

(** A settings file in which [font_name] was saved as [null]. *)
Definition null_store : JsonStore.t :=
  JsonStore.of_file {[ "font_name" := PDict {[ "value" := PNone ]} ]} true.

(** A settings file that holds the JSON value [null] instead of an object. *)
Definition non_object_store : JsonStore.t := JsonStore.of_document PNone true.

(** A settings file that holds a JSON list naming one key. *)
Definition list_store : JsonStore.t :=
  JsonStore.of_document (PList [PStr "font_scale"]) true.

(** A settings file on a disk that refuses writes. *)
Definition readonly_store : JsonStore.t := JsonStore.of_file ∅ false.

(** The singleton right after [SettingsManager()], with no fonts found. *)
Definition fresh_manager : SettingsManager.t (S:=JsonStore.t) :=
  SettingsManager.construct [] None.

(** The same after [initialize()] over a given store. *)
Definition initialized_manager (store : JsonStore.t)
  : SettingsManager.t (S:=JsonStore.t) :=
  fst (SettingsManager.initialize [] (Ok store) fresh_manager).

(** ** Lemmas on the helpers *)

Lemma odict_get_copy {V} (k : string) (d : odict.t V) :
  odict.copy d !! k = odict.get k d.
Proof.
  induction d as [|[k' v] d IH]; [done|].
  unfold odict.copy in *. simpl.
  destruct (String.eqb_spec k k') as [->|Hne].
  - by rewrite lookup_insert_eq.
  - rewrite lookup_insert_ne; [apply IH | congruence].
Qed.

Lemma odict_get_keys {V} (k : string) (d : odict.t V) :
  k ∈ odict.keys d ↔ is_Some (odict.get k d).
Proof.
  induction d as [|[k' v] d IH]; simpl.
  - split; [by intros ?%elem_of_nil | by intros [? ?]].
  - rewrite elem_of_cons. destruct (String.eqb_spec k k') as [->|Hne].
    + split; [eauto | by left].
    + rewrite <- IH. split; [by intros [?|?] | by right].
Qed.

Lemma default_is_not_None fonts k d :
  odict.get k (DEFAULT_SETTINGS fonts) = Some d → d ≠ PNone.
Proof.
  unfold DEFAULT_SETTINGS. simpl. intros Hd.
  repeat match type of Hd with
         | (if ?b then _ else _) = _ => destruct b
         end; congruence.
Qed.

(** A write that the JSON store accepted found an object as document and
    left it, with the new entry, both in memory and on disk. *)
Lemma JsonStore_put_accepted (s s' : JsonStore.t) k r :
  JsonStore.put s k r = (s', None) →
  ∃ d, JsonStore._data s = PDict d
       ∧ JsonStore._data s' = PDict (<[k := PDict r]> d)
       ∧ JsonStore.on_disk s' = PDict (<[k := PDict r]> d).
Proof.
  unfold JsonStore.put, py_setitem.
  destruct (JsonStore._data s) as [| | | | | |d] eqn:Hdata; try done.
  destruct (JsonStore.writable s); [|done].
  intros [= <-]. by exists d.
Qed.

(** The JSON store keeps the promises of a key/value store. *)
#[export] Instance JsonStore_laws : StoreLaws JsonStore.t.
Proof.
  split; simpl; unfold JsonStore.exists_, JsonStore.get, JsonStore.reopen.
  - intros s s' k r (d & _ & -> & _)%JsonStore_put_accepted. simpl.
    by rewrite lookup_insert_eq.
  - intros s s' k r k' (d & _ & -> & _)%JsonStore_put_accepted. simpl. eauto.
  - intros s s' k r (d & _ & -> & _)%JsonStore_put_accepted. simpl.
    by rewrite lookup_insert_eq.
  - intros s s' k r k' (d & -> & -> & _)%JsonStore_put_accepted Hne. simpl.
    by rewrite lookup_insert_ne.
  - intros s s' s'' k r (d & _ & -> & Hdisk)%JsonStore_put_accepted.
    intros [= <-] k'. simpl. by rewrite Hdisk.
Qed.

Section manager_lemmas.

Context {S : Type} `{AbstractStore S}.
Variable AVAILABLE_FONTS : odict.t string.

Abbreviation DEFAULTS := (DEFAULT_SETTINGS AVAILABLE_FONTS).
Abbreviation manager := (SettingsManager.t (S:=S)).
Abbreviation settings_of := SettingsManager._settings.
Abbreviation store_of := SettingsManager._store.
Abbreviation get := (SettingsManager.get AVAILABLE_FONTS).
Abbreviation set := SettingsManager.set.
Abbreviation initialize := (SettingsManager.initialize AVAILABLE_FONTS).
Abbreviation construct := (SettingsManager.construct (S:=S) AVAILABLE_FONTS).

Lemma recognized_default k :
  recognized AVAILABLE_FONTS k ↔ is_Some (odict.get k DEFAULTS).
Proof. apply odict_get_keys. Qed.

(** [get] is a lookup with a two-stage fallback and leaves [self] alone. *)
Lemma get_hit key dflt (self : manager) v :
  settings_of self !! key = Some v → get key dflt self = (self, Ok v).
Proof. intros Hv. unfold SettingsManager.get. by rewrite Hv. Qed.

Lemma get_miss key dflt (self : manager) :
  settings_of self !! key = None →
  get key dflt self =
    (self, Ok (if is_None dflt then default PNone (odict.get key DEFAULTS)
               else dflt)).
Proof.
  intros Hv. unfold SettingsManager.get. rewrite Hv. simpl.
  by destruct (is_None dflt).
Qed.

(** The in-memory effect of [set], whatever the store does. *)
Lemma set_settings key value (self : manager) :
  settings_of (fst (set key value self)) = <[key := value]> (settings_of self).
Proof.
  unfold SettingsManager.set, SettingsManager.bind,
    SettingsManager._save_setting. simpl.
  destruct (store_of self) as [store|]; [|done].
  by destruct (store_put store key _) as [store' [e|]].
Qed.

Lemma set_uninitialized key value (self : manager) :
  store_of self = None →
  set key value self = (SettingsManager.setitem_settings key value self, Ok tt).
Proof.
  intros Hs. unfold SettingsManager.set, SettingsManager.bind,
    SettingsManager._save_setting. simpl. by rewrite Hs.
Qed.

Lemma set_initialized key value (self : manager) store :
  store_of self = Some store →
  set key value self =
    let w := store_put store key {[ "value" := value ]} in
    ({| SettingsManager._initialized := SettingsManager._initialized self;
        SettingsManager._store := Some (fst w);
        SettingsManager._settings := <[key := value]> (settings_of self) |},
     match snd w with Some e => Raise e | None => Ok tt end).
Proof.
  intros Hs. unfold SettingsManager.set, SettingsManager.bind,
    SettingsManager._save_setting. simpl. rewrite Hs.
  by destruct (store_put store key _) as [store' [e|]].
Qed.

Lemma construct_fresh :
  construct None =
    {| SettingsManager._initialized := true; SettingsManager._store := None;
       SettingsManager._settings := odict.copy DEFAULTS |}.
Proof. reflexivity. Qed.

Lemma manager_eq (a b : manager) :
  SettingsManager._initialized a = SettingsManager._initialized b →
  store_of a = store_of b → settings_of a = settings_of b → a = b.
Proof. destruct a, b. simpl. by intros -> -> ->. Qed.

(** One turn of the loading loop: when [exists] answers, the turn stores
    exactly the value the specification prescribes; when it raises, the
    exception leaves the turn and nothing is stored. *)
Lemma load_one_answers store (self : manager) k dv found :
  store_exists store k = Ok found →
  SettingsManager.load_one store (k, dv) self =
    (SettingsManager.setitem_settings k (spec_loaded_value store k dv) self, Ok tt).
Proof.
  intros Hex.
  unfold SettingsManager.load_one, SettingsManager.bind, SettingsManager.lift,
    spec_loaded_value.
  rewrite Hex. destruct found; [|done].
  destruct (store_get store k) as [stored|e]; simpl; [|done].
  by destruct stored.
Qed.

Lemma load_one_raises store (self : manager) k dv e :
  store_exists store k = Raise e →
  SettingsManager.load_one store (k, dv) self = (self, Raise e).
Proof.
  intros Hex.
  unfold SettingsManager.load_one, SettingsManager.bind, SettingsManager.lift.
  by rewrite Hex.
Qed.

Lemma loop_step store k dv rest (self : manager) :
  SettingsManager.for_each (SettingsManager.load_one store) ((k, dv) :: rest) self =
    match store_exists store k with
    | Ok _ =>
        SettingsManager.for_each (SettingsManager.load_one store) rest
          (SettingsManager.setitem_settings k (spec_loaded_value store k dv) self)
    | Raise e => (self, Raise e)
    end.
Proof.
  cbn [SettingsManager.for_each]. unfold SettingsManager.bind at 1.
  destruct (store_exists store k) as [found|e] eqn:Hex.
  - by rewrite (load_one_answers _ _ _ _ _ Hex).
  - by rewrite (load_one_raises _ _ _ _ _ Hex).
Qed.

(** The loop touches nothing but the record. *)
Lemma loop_fields store items (self : manager) :
  let after := fst (SettingsManager.for_each (SettingsManager.load_one store) items self) in
  SettingsManager._initialized after = SettingsManager._initialized self
  ∧ store_of after = store_of self.
Proof.
  revert self. induction items as [|[k dv] items IH]; intros self; [done|].
  cbv zeta. rewrite loop_step.
  destruct (store_exists store k); [|done].
  destruct (IH (SettingsManager.setitem_settings k
                  (spec_loaded_value store k dv) self)) as [Hi Hs].
  cbv zeta in Hi, Hs. by rewrite Hi, Hs.
Qed.

Lemma loop_other store items (self : manager) k :
  k ∉ odict.keys items →
  settings_of (fst (SettingsManager.for_each (SettingsManager.load_one store) items self)) !! k
  = settings_of self !! k.
Proof.
  revert self. induction items as [|[k' dv] items IH]; intros self Hk; [done|].
  apply not_elem_of_cons in Hk as [Hne Hk]. rewrite loop_step.
  destruct (store_exists store k'); [|done].
  rewrite IH by done. simpl. by rewrite lookup_insert_ne.
Qed.

(** Whether or not the loop got as far as key [k], its entry afterwards is
    the one it had or the one loaded for it. *)
Lemma loop_entry store items (self : manager) k dv :
  NoDup (odict.keys items) → odict.get k items = Some dv →
  let after := fst (SettingsManager.for_each (SettingsManager.load_one store) items self) in
  settings_of after !! k = settings_of self !! k
  ∨ settings_of after !! k = Some (spec_loaded_value store k dv).
Proof.
  revert self. induction items as [|[k' dv'] items IH]; intros self Hnd Hget.
  - discriminate.
  - apply NoDup_cons in Hnd as [Hfresh Hnd]. cbn [odict.get] in Hget.
    cbv zeta. rewrite loop_step.
    destruct (store_exists store k'); [|by left].
    destruct (String.eqb_spec k k') as [->|Hne].
    + injection Hget as ->. right. rewrite loop_other by done.
      simpl. apply lookup_insert_eq.
    + destruct (IH (SettingsManager.setitem_settings k'
                      (spec_loaded_value store k' dv') self) Hnd Hget) as [Hkept|Hload].
      * left. cbv zeta in Hkept. rewrite Hkept. simpl.
        by rewrite lookup_insert_ne.
      * by right.
Qed.

(** The loop returns exactly when [exists] answers for every key. *)
Lemma loop_returns store items (self : manager) :
  snd (SettingsManager.for_each (SettingsManager.load_one store) items self) = Ok tt
  ↔ ∀ k, k ∈ odict.keys items → ∃ found, store_exists store k = Ok found.
Proof.
  revert self. induction items as [|[k' dv'] items IH]; intros self.
  - split; [by intros _ k ?%elem_of_nil | done].
  - rewrite loop_step. split.
    + intros Hret k Hin. destruct (store_exists store k') as [found|e] eqn:Hex;
        [|done].
      apply elem_of_cons in Hin as [->|Hin]; [eauto|].
      by apply (proj1 (IH _) Hret).
    + intros Hall. destruct (Hall k') as [found ->]; [apply list_elem_of_here|].
      apply IH. intros k Hin. apply Hall. by apply list_elem_of_further.
Qed.

Lemma loop_lookup store items (self : manager) k dv :
  snd (SettingsManager.for_each (SettingsManager.load_one store) items self) = Ok tt →
  NoDup (odict.keys items) → odict.get k items = Some dv →
  settings_of (fst (SettingsManager.for_each (SettingsManager.load_one store) items self)) !! k
  = Some (spec_loaded_value store k dv).
Proof.
  revert self. induction items as [|[k' dv'] items IH]; intros self Hret Hnd Hget.
  - discriminate.
  - apply NoDup_cons in Hnd as [Hfresh Hnd]. cbn [odict.get] in Hget.
    rewrite loop_step in *.
    destruct (store_exists store k'); [|done].
    destruct (String.eqb_spec k k') as [->|Hne].
    + injection Hget as ->. rewrite loop_other by done.
      simpl. apply lookup_insert_eq.
    + by apply IH.
Qed.

(** A loop that raised stopped at the first key for which [exists] raised:
    the keys before it are loaded, every other entry is as it was. *)
Lemma loop_raised store items (self : manager) e :
  snd (SettingsManager.for_each (SettingsManager.load_one store) items self) = Raise e →
  NoDup (odict.keys items) →
  let after := fst (SettingsManager.for_each (SettingsManager.load_one store) items self) in
  ∃ before key dv later,
    items = (before ++ (key, dv) :: later)%list
    ∧ store_exists store key = Raise e
    ∧ (∀ k d, odict.get k before = Some d →
         settings_of after !! k = Some (spec_loaded_value store k d))
    ∧ (∀ k, k ∉ odict.keys before →
         settings_of after !! k = settings_of self !! k).
Proof.
  revert self. induction items as [|[k' dv'] items IH]; intros self Hraise Hnd.
  - discriminate.
  - apply (NoDup_cons k' (odict.keys items)) in Hnd as [Hfresh Hnd]. cbv zeta.
    rewrite loop_step in *.
    destruct (store_exists store k') as [found|e'] eqn:Hex.
    + destruct (IH _ Hraise Hnd) as (before & key & dv & later & -> & Hkey & Hload & Hkept).
      cbv zeta in Hload, Hkept.
      assert (k' ∉ odict.keys before) as Hk'.
      { intros Hin. apply Hfresh. apply list_elem_of_In.
        apply list_elem_of_In in Hin. unfold odict.keys in *.
        rewrite List.map_app. apply in_or_app. by left. }
      exists ((k', dv') :: before), key, dv, later.
      split; [done|]. split; [done|]. split.
      * intros k d. cbn [odict.get].
        destruct (String.eqb_spec k k') as [->|Hne]; [|by apply Hload].
        intros [= <-]. rewrite Hkept by done. simpl. apply lookup_insert_eq.
      * intros k [Hne Hk]%not_elem_of_cons. rewrite Hkept by done.
        simpl. by rewrite lookup_insert_ne.
    + injection Hraise as ->. exists [], k', dv', items.
      split; [done|]. split; [done|]. split; [done|]. done.
Qed.

(** Running the loop again on its own result changes nothing and ends the
    same way. *)
Lemma loop_again store items (self : manager) :
  NoDup (odict.keys items) →
  SettingsManager.for_each (SettingsManager.load_one store) items
    (fst (SettingsManager.for_each (SettingsManager.load_one store) items self))
  = SettingsManager.for_each (SettingsManager.load_one store) items self.
Proof.
  revert self. induction items as [|[k dv] items IH]; intros self Hnd; [done|].
  apply NoDup_cons in Hnd as [Hfresh Hnd].
  rewrite (loop_step store k dv items self).
  destruct (store_exists store k) as [found|e] eqn:Hex.
  - set (first := SettingsManager.setitem_settings k (spec_loaded_value store k dv) self).
    set (once := fst (SettingsManager.for_each (SettingsManager.load_one store) items first)).
    rewrite loop_step, Hex.
    assert (SettingsManager.setitem_settings k (spec_loaded_value store k dv) once
            = once) as ->.
    { apply manager_eq; [done..|]. simpl. apply insert_id.
      subst once. rewrite loop_other by done. subst first. simpl.
      apply lookup_insert_eq. }
    by apply IH.
  - cbn [fst]. by rewrite loop_step, Hex.
Qed.

Lemma defaults_NoDup : NoDup (odict.keys DEFAULTS).
Proof.
  unfold DEFAULT_SETTINGS. simpl.
  apply (bool_decide_unpack _). by vm_compute.
Qed.

Lemma initialize_opened store (self : manager) :
  initialize (Ok store) self =
    SettingsManager.for_each (SettingsManager.load_one store) DEFAULTS
      {| SettingsManager._initialized := SettingsManager._initialized self;
         SettingsManager._store := Some store;
         SettingsManager._settings := settings_of self |}.
Proof. reflexivity. Qed.

Lemma initialize_failed e (self : manager) :
  initialize (Raise e) self = (self, Raise e).
Proof. reflexivity. Qed.

(** However the loading ends, [initialize] over an opened store leaves the
    store in place and the construction flag alone. *)
Lemma initialize_fields store (self : manager) :
  SettingsManager._initialized (fst (initialize (Ok store) self))
  = SettingsManager._initialized self
  ∧ store_of (fst (initialize (Ok store) self)) = Some store.
Proof.
  rewrite initialize_opened.
  match goal with
  | |- context [SettingsManager.for_each _ _ ?start] =>
      destruct (loop_fields store DEFAULTS start) as [Hi Hs]
  end.
  cbv zeta in Hi, Hs. by rewrite Hi, Hs.
Qed.

Lemma initialize_returns store (self : manager) :
  snd (initialize (Ok store) self) = Ok tt ↔ loadable AVAILABLE_FONTS store.
Proof. rewrite initialize_opened. apply loop_returns. Qed.

(** After an [initialize] that returned, every recognized key holds its
    loaded value. *)
Lemma initialize_lookup store (self : manager) k dv :
  snd (initialize (Ok store) self) = Ok tt →
  odict.get k DEFAULTS = Some dv →
  settings_of (fst (initialize (Ok store) self)) !! k
  = Some (spec_loaded_value store k dv).
Proof.
  rewrite initialize_opened. intros Hret Hk.
  by apply loop_lookup; [|apply defaults_NoDup|].
Qed.

Lemma initialize_entry store (self : manager) k dv :
  odict.get k DEFAULTS = Some dv →
  settings_of (fst (initialize (Ok store) self)) !! k = settings_of self !! k
  ∨ settings_of (fst (initialize (Ok store) self)) !! k
    = Some (spec_loaded_value store k dv).
Proof.
  rewrite initialize_opened. intros Hk.
  match goal with
  | |- context [SettingsManager.for_each _ _ ?start] =>
      exact (loop_entry store DEFAULTS start k dv defaults_NoDup Hk)
  end.
Qed.

(** However it ends, [initialize] leaves the entries of other keys alone. *)
Lemma initialize_other store (self : manager) k :
  ¬ recognized AVAILABLE_FONTS k →
  settings_of (fst (initialize (Ok store) self)) !! k = settings_of self !! k.
Proof.
  intros Hk. rewrite initialize_opened. by rewrite loop_other.
Qed.

Lemma fst_returning_None (c : SettingsManager.M unit) (self : manager) :
  fst (SettingsManager.returning_None c self) = fst (c self).
Proof.
  unfold SettingsManager.returning_None, SettingsManager.bind.
  by destruct (c self) as [self' [[]|e]].
Qed.

Lemma set_entry_after c key value (self : manager) k :
  (none_free AVAILABLE_FONTS c = true → is_None value = false) →
  entry_after AVAILABLE_FONTS c self k
    (settings_of (fst (set key value self)) !! k).
Proof.
  intros Hv. rewrite set_settings.
  destruct (decide (key = k)) as [->|Hne].
  - rewrite lookup_insert_eq. by apply entry_set.
  - rewrite lookup_insert_ne by done. apply entry_kept.
Qed.

Lemma run_entry_after c (self : manager) k :
  recognized AVAILABLE_FONTS k →
  entry_after AVAILABLE_FONTS c self k
    (settings_of (fst (SettingsManager.run AVAILABLE_FONTS c self)) !! k).
Proof.
  intros Hk.
  destruct c as [|[store|e]| | | | | | | |];
    cbn [SettingsManager.run]; rewrite ?fst_returning_None;
    try apply entry_kept;
    try (apply set_entry_after; cbn [none_free];
         by destruct (is_None value)).
  - unfold SettingsManager.__init__.
    destruct (SettingsManager._initialized self); cbn [fst].
    + apply entry_kept.
    + cbn [SettingsManager._settings]. rewrite odict_get_copy.
      apply entry_reset.
  - apply recognized_default in Hk as [dv Hdv].
    destruct (initialize_entry store self k dv Hdv) as [->| ->].
    + apply entry_kept.
    + by eapply entry_loaded.
Qed.

Lemma loaded_value_not_None store k dv :
  recognized AVAILABLE_FONTS k →
  no_null_values AVAILABLE_FONTS store = true →
  odict.get k DEFAULTS = Some dv →
  spec_loaded_value store k dv ≠ PNone.
Proof.
  intros Hk Hnn Hdv. pose proof (default_is_not_None _ _ _ Hdv) as Hd.
  unfold no_null_values in Hnn. rewrite forallb_forall in Hnn.
  assert (In k (odict.keys DEFAULTS)) as Hin by by apply list_elem_of_In.
  specialize (Hnn k Hin). unfold spec_loaded_value.
  destruct (store_exists store k) as [[]|]; try done.
  destruct (store_get store k) as [[]|]; try done.
  destruct (d !! "value") as [v|]; [|done].
  by destruct v.
Qed.

(** [get(k)] is [None] for a recognized key exactly when the record holds
    [None] under it. *)
Lemma resolvable_entries (self : manager) :
  resolvable AVAILABLE_FONTS self ↔
  ∀ k, recognized AVAILABLE_FONTS k → settings_of self !! k ≠ Some PNone.
Proof.
  unfold resolvable. split; intros Hr k Hk; specialize (Hr k Hk).
  - intros Hmem. apply Hr. by rewrite (get_hit _ _ _ _ Hmem).
  - destruct (settings_of self !! k) as [x|] eqn:Hmem.
    + rewrite (get_hit _ _ _ _ Hmem). cbn [snd]. congruence.
    + rewrite (get_miss _ _ _ Hmem). cbn [snd is_None].
      apply recognized_default in Hk as [dv Hdv]. rewrite Hdv. cbn.
      intros [= ->]. by eapply default_is_not_None.
Qed.

End manager_lemmas.

(** ** The model on concrete inputs *)

Example replace_non_overlapping :
  pystr.replace "aa" "b" "aaaaa" = "bba" ∧ pystr.replace "" "x" "ab" = "xaxbx".
Proof. by vm_compute. Qed.

Example splitext_leading_dots :
  os_path.splitext ".bashrc" = (".bashrc", "")
  ∧ os_path.splitext "a.tar.gz" = ("a.tar", ".gz")
  ∧ os_path.splitext "fonts.d/Inter" = ("fonts.d/Inter", "").
Proof. by vm_compute. Qed.

Example variable_font_name :
  display_name_of "/app/fonts/Inter-VariableFont_wdth,wght.ttf" = "Inter".
Proof. by vm_compute. Qed.

(** Two files with the same derived name: the later match wins and keeps the
    place of the earlier one. *)
Example last_scanned_wins :
  odict.set "Inter" "/f/Inter.otf" [("Inter", "/f/Inter.ttf"); ("Lato", "/f/Lato.ttf")]
  = [("Inter", "/f/Inter.otf"); ("Lato", "/f/Lato.ttf")].
Proof. reflexivity. Qed.

Example example_host_default_font :
  load_module example_host
  = Ok ([ ("Inter", "/app/fonts/Inter-Regular.ttf");
          ("Some Font", "/app/fonts/Some_Font-VariableFont.otf") ],
        [ ("font_name", PStr "Inter"); ("font_scale", PFloat float_one);
          ("launch_maximized", PBool false) ]).
Proof. by vm_compute. Qed.

(** No directory named [fonts] anywhere: nothing is found and nothing is
    raised, provided a frozen build carries its bundle root. *)
Lemma get_fonts_directory_nowhere (h : Host) cwd :
  os_getcwd h = Ok cwd →
  (∀ p, os_path_isdir h p = false) →
  (sys_frozen h = true → is_Some (sys_MEIPASS h)) →
  get_fonts_directory h = Ok None.
Proof.
  intros Hcwd Hdir Hfrozen. unfold get_fonts_directory.
  rewrite Hcwd. simpl. rewrite Hdir.
  destruct (sys_frozen h); [|done].
  destruct (Hfrozen eq_refl) as [meipass ->]. by rewrite Hdir.
Qed.

(** Loading the hand-edited file: the good record is read, the two broken
    ones fall back to the defaults, the foreign key is not loaded. *)
Example load_edited_file :
  let self := initialized_manager edited_store in
  SettingsManager._settings self !! "font_scale" = Some (PFloat float_two)
  ∧ SettingsManager._settings self !! "launch_maximized" = Some (PBool false)
  ∧ SettingsManager._settings self !! "font_name" = Some (PStr "Roboto")
  ∧ SettingsManager._settings self !! "theme" = None.
Proof. by vm_compute. Qed.

(** A value field holding [null] is a stored value like any other. *)
Example load_null_value :
  SettingsManager.get [] "font_name" PNone (initialized_manager null_store)
  = (initialized_manager null_store, Ok PNone).
Proof. by vm_compute. Qed.

(** A settings file holding a JSON list: [exists] answers by list
    membership, the read then raises inside the [try], and the default is
    used. *)
Example load_over_list_document :
  snd (SettingsManager.initialize [] (Ok list_store) fresh_manager) = Ok tt
  ∧ store_exists list_store "font_scale" = Ok true
  ∧ store_get list_store "font_scale" = Raise TypeError
  ∧ SettingsManager._settings (initialized_manager list_store) !! "font_scale"
    = Some (PFloat float_one).
Proof. by vm_compute. Qed.

(** A settings file holding [null]: the [exists] test raises outside the
    [try]; [initialize()] raises with the new store already assigned and with
    the record, an earlier [set] included, as it was. *)
Example initialize_over_null_document :
  let before := fst (SettingsManager.set "font_scale" (PFloat float_two) fresh_manager) in
  let after := fst (SettingsManager.initialize [] (Ok non_object_store) before) in
  snd (SettingsManager.initialize [] (Ok non_object_store) before) = Raise TypeError
  ∧ SettingsManager._store after = Some non_object_store
  ∧ SettingsManager._settings after !! "font_scale" = Some (PFloat float_two).
Proof. by vm_compute. Qed.

(** A failing write leaves [set] as an exception, after the record changed. *)
Example set_on_readonly_disk :
  let self := initialized_manager readonly_store in
  snd (SettingsManager.set "font_scale" (PFloat float_two) self) = Raise OSError
  ∧ snd (SettingsManager.get [] "font_scale" PNone
           (fst (SettingsManager.set "font_scale" (PFloat float_two) self)))
    = Ok (PFloat float_two).
Proof. by vm_compute. Qed.

(** [SettingsManager()] called again hands back the same object. *)
Example singleton_construct_again :
  let self := initialized_manager edited_store in
  SettingsManager.construct [] (Some self) = self.
Proof. by vm_compute. Qed.

(** ** The properties of the specification *)
Section properties.

Context {S : Type} `{AbstractStore S}.
Variable AVAILABLE_FONTS : odict.t string.

Abbreviation DEFAULTS := (DEFAULT_SETTINGS AVAILABLE_FONTS).
Abbreviation manager := (SettingsManager.t (S:=S)).
Abbreviation settings_of := SettingsManager._settings.
Abbreviation store_of := SettingsManager._store.
Abbreviation get := (SettingsManager.get AVAILABLE_FONTS).
Abbreviation set := SettingsManager.set.
Abbreviation initialize := (SettingsManager.initialize AVAILABLE_FONTS).
Abbreviation construct := (SettingsManager.construct (S:=S) AVAILABLE_FONTS).

(** C1. For every key [k] of Default Settings and every value [v] of the
    expected type, [set(k, v)] followed by [get(k)] on the same instance
    returns [v]: whatever the record held before, whether or not a store is
    open, whatever the outcome of the write, and also when the caller
    passes a default to [get]. *)
Theorem C1_set_then_get (self : manager) k v dflt :
  recognized AVAILABLE_FONTS k →
  expected_type AVAILABLE_FONTS k v = true →
  snd (get k dflt (fst (set k v self))) = Ok v.
Proof.
  intros _ _.
  erewrite get_hit; [done|].
  rewrite set_settings. apply lookup_insert_eq.
Qed.

(** C4. [get(key, default)] returns the in-memory value when the key is
    present; otherwise the caller's default when one is given; otherwise the
    module default of the key; otherwise [None].  It always returns, leaves
    the manager (record and store) as it was, and its result depends on the
    in-memory record only.  In particular an unrecognized key that is not in
    the record, asked without default, yields [None], as on a newly
    constructed manager. *)
Theorem C4_get_cascade key dflt (self : manager) :
  fst (get key dflt self) = self
  ∧ (∃ v, snd (get key dflt self) = Ok v
      ∧ (∀ x, settings_of self !! key = Some x → v = x)
      ∧ (settings_of self !! key = None → dflt ≠ PNone → v = dflt)
      ∧ (∀ d, settings_of self !! key = None → dflt = PNone →
           odict.get key DEFAULTS = Some d → v = d)
      ∧ (settings_of self !! key = None → dflt = PNone →
           odict.get key DEFAULTS = None → v = PNone))
  ∧ (settings_of self !! key = None → ¬ recognized AVAILABLE_FONTS key →
       snd (get key PNone self) = Ok PNone)
  ∧ (¬ recognized AVAILABLE_FONTS key →
       snd (get key PNone (construct None)) = Ok PNone)
  ∧ (∀ other : manager, settings_of other = settings_of self →
       snd (get key dflt other) = snd (get key dflt self)).
Proof.
  split; [done|]. split; [|split; [|split]].
  - destruct (settings_of self !! key) as [x|] eqn:Hmem.
    + exists x. rewrite (get_hit _ _ _ _ _ Hmem).
      repeat split; try done. by intros ? [= ->].
    + rewrite (get_miss _ _ _ _ Hmem). eexists. split; [done|].
      repeat split; try done.
      * intros _ Hd. by destruct dflt.
      * intros d _ -> Hdef. cbn [is_None]. by rewrite Hdef.
      * intros _ -> Hdef. cbn [is_None]. by rewrite Hdef.
  - intros Hmem Hk. rewrite (get_miss _ _ _ _ Hmem). cbn [is_None snd].
    destruct (odict.get key DEFAULTS) as [d|] eqn:Hd; [|done].
    exfalso. apply Hk, recognized_default. eauto.
  - intros Hk.
    assert (odict.get key DEFAULTS = None) as Hd.
    { destruct (odict.get key DEFAULTS) eqn:Hd; [|done].
      exfalso. apply Hk, recognized_default. eauto. }
    rewrite get_miss.
    + cbn [is_None]. by rewrite Hd.
    + rewrite construct_fresh. cbn [SettingsManager._settings].
      by rewrite odict_get_copy.
  - intros other Heq. unfold SettingsManager.get. simpl. by rewrite Heq.
Qed.

(** C5 (amended). Provided the store's [exists] test answers for every key
    of Default Settings, a successful opening followed by the loading loop
    never raises; for a key [k] of Default Settings with default [dv] it
    leaves in the record the stored value, and [dv] whenever the store lacks
    [k], reading the record raises, the record is not an object with a
    [get], or it has no value field.  Entries of other keys are left as they
    were. *)
Theorem C5_initialize_loads store (self : manager) k dv :
  loadable AVAILABLE_FONTS store →
  odict.get k DEFAULTS = Some dv →
  let self' := fst (initialize (Ok store) self) in
  snd (initialize (Ok store) self) = Ok tt
  ∧ (∀ any : manager,
       store_of any = Some store ∨ store_of any = None →
       snd (SettingsManager._load_settings AVAILABLE_FONTS any) = Ok tt)
  ∧ settings_of self' !! k = Some (spec_loaded_value store k dv)
  ∧ (store_exists store k = Ok false → settings_of self' !! k = Some dv)
  ∧ (∀ e, store_exists store k = Ok true → store_get store k = Raise e →
       settings_of self' !! k = Some dv)
  ∧ (∀ stored e, store_exists store k = Ok true →
       store_get store k = Ok stored →
       py_get stored "value" dv = Raise e →
       settings_of self' !! k = Some dv)
  ∧ (∀ record, store_exists store k = Ok true →
       store_get store k = Ok (PDict record) → record !! "value" = None →
       settings_of self' !! k = Some dv)
  ∧ (∀ record v, store_exists store k = Ok true →
       store_get store k = Ok (PDict record) → record !! "value" = Some v →
       settings_of self' !! k = Some v)
  ∧ (∀ k', ¬ recognized AVAILABLE_FONTS k' →
       settings_of self' !! k' = settings_of self !! k').
Proof.
  intros Hstore Hk self'. subst self'.
  assert (snd (initialize (Ok store) self) = Ok tt) as Hret
    by by apply initialize_returns.
  pose proof (initialize_lookup AVAILABLE_FONTS store self k dv Hret Hk) as Hload.
  split; [done|]. split.
  { intros any [Hany|Hany]; unfold SettingsManager._load_settings;
      rewrite Hany; [|done].
    by apply loop_returns. }
  split; [done|].
  rewrite Hload. unfold spec_loaded_value.
  repeat split.
  - by intros ->.
  - by intros e -> ->.
  - intros stored e -> -> Hraise. by destruct stored.
  - by intros record -> -> ->.
  - by intros record v -> -> ->.
  - intros k' Hk'. by apply initialize_other.
Qed.

(** C6. On a newly constructed manager, [initialize()] over a store that
    holds no key succeeds, and afterwards [get(k)] is the default of [k] for
    every key [k] of Default Settings. *)
Theorem C6_empty_store_defaults store k dv :
  (∀ key, store_exists store key = Ok false) →
  odict.get k DEFAULTS = Some dv →
  snd (initialize (Ok store) (construct None)) = Ok tt
  ∧ snd (get k PNone (fst (initialize (Ok store) (construct None)))) = Ok dv.
Proof.
  intros Hempty Hk.
  assert (snd (initialize (Ok store) (construct None)) = Ok tt) as Hret.
  { apply initialize_returns. intros key _. eauto. }
  split; [done|].
  erewrite get_hit; [done|].
  rewrite (initialize_lookup _ _ _ _ _ Hret Hk).
  unfold spec_loaded_value. by rewrite Hempty.
Qed.

(** C7. [set(key, value)] always puts [value] under [key] in the record.
    Without a store it then returns normally and nothing else changes.
    With a store it performs one [put] of the pair [{value: value}] under
    [key]; if that raises, the exception leaves [set] and the record keeps
    the new value. *)
Theorem C7_set_persistence key value (self : manager) :
  settings_of (fst (set key value self)) = <[key := value]> (settings_of self)
  ∧ (store_of self = None →
       set key value self
       = (SettingsManager.setitem_settings key value self, Ok tt))
  ∧ (∀ store, store_of self = Some store →
       let written := store_put store key {[ "value" := value ]} in
       store_of (fst (set key value self)) = Some (fst written)
       ∧ (snd written = None → snd (set key value self) = Ok tt)
       ∧ (∀ e, snd written = Some e →
            snd (set key value self) = Raise e
            ∧ settings_of (fst (set key value self)) !! key = Some value)).
Proof.
  split; [apply set_settings|]. split; [apply set_uninitialized|].
  intros store Hs written. subst written.
  rewrite (set_initialized _ _ _ _ Hs). simpl.
  split; [done|]. split.
  - by intros ->.
  - intros e ->. split; [done|]. apply lookup_insert_eq.
Qed.

(** C10. For distinct keys [k] and [k'], [set(k, v)] leaves the entry of
    [k'] in the record, and so [get(k')], as it was.  With a store open it
    hands the store one [put] for [k]; when that succeeds the stored entry
    of [k'] is as before. *)
Theorem C10_set_frame `{!StoreLaws S} (self : manager) k v k' dflt :
  k' ≠ k →
  settings_of (fst (set k v self)) !! k' = settings_of self !! k'
  ∧ snd (get k' dflt (fst (set k v self))) = snd (get k' dflt self)
  ∧ (∀ store, store_of self = Some store →
       store_of (fst (set k v self))
       = Some (fst (store_put store k {[ "value" := v ]}))
       ∧ (∀ store', snd (set k v self) = Ok tt →
            store_of (fst (set k v self)) = Some store' →
            store_exists store' k' = store_exists store k'
            ∧ store_get store' k' = store_get store k')).
Proof.
  intros Hne.
  assert (settings_of (fst (set k v self)) !! k' = settings_of self !! k')
    as Hmem by (rewrite set_settings; by apply lookup_insert_ne).
  split; [done|]. split.
  { unfold SettingsManager.get. simpl. by rewrite Hmem. }
  intros store Hs. rewrite (set_initialized _ _ _ _ Hs). simpl.
  split; [done|].
  intros store' Hok [= <-].
  destruct (store_put store k {[ "value" := v ]}) as [written failure] eqn:Hput.
  simpl in *. destruct failure; [done|].
  by eapply put_frame.
Qed.

(** C2. When a manager with an open store has performed [set(k, v)]
    without error for a key [k] of Default Settings, a newly constructed
    manager whose [initialize()] opens a store over the same file loads
    without error and its [get(k)] is [v]. *)
Theorem C2_persisted_value_survives `{!StoreLaws S}
    (self self' : manager) store store' opened k v :
  recognized AVAILABLE_FONTS k →
  store_of self = Some store →
  set k v self = (self', Ok tt) →
  store_of self' = Some store' →
  store_reopen store' = Ok opened →
  snd (initialize (store_reopen store') (construct None)) = Ok tt
  ∧ snd (get k PNone (fst (initialize (store_reopen store') (construct None))))
    = Ok v.
Proof.
  intros Hk Hs Hset Hs' Hopen.
  rewrite (set_initialized _ _ _ _ Hs) in Hset. simpl in Hset.
  destruct (store_put store k {[ "value" := v ]}) as [written failure] eqn:Hput.
  simpl in Hset. destruct failure; [done|].
  injection Hset as <-. simpl in Hs'. injection Hs' as ->.
  destruct (reopen_synced _ _ _ _ _ Hput Hopen k) as [Hex Hget].
  rewrite (put_exists _ _ _ _ Hput) in Hex.
  rewrite (put_get _ _ _ _ Hput) in Hget.
  apply recognized_default in Hk as [dv Hdv].
  rewrite Hopen.
  assert (snd (initialize (Ok opened) (construct None)) = Ok tt) as Hret.
  { apply initialize_returns. intros k' _.
    destruct (reopen_synced _ _ _ _ _ Hput Hopen k') as [-> _].
    by eapply put_answers. }
  split; [done|].
  erewrite get_hit; [done|].
  rewrite (initialize_lookup _ _ _ _ _ Hret Hdv).
  unfold spec_loaded_value. rewrite Hex, Hget.
  by rewrite lookup_singleton_eq.
Qed.

(** C3 (amended). A newly constructed manager has an entry for every key
    of Default Settings and [get(k)] is not [None] for any of them.  Every
    operation keeps the entries in place, and keeps [get(k)] from being
    [None] provided it brings no [None] in: [set] and the property setters
    are given a value other than [None], and [initialize()] opens a store
    with no [None] under the value field of a recognized key. *)
Theorem C3_resolvable_preserved c (self : manager) :
  (present AVAILABLE_FONTS (construct None)
   ∧ resolvable AVAILABLE_FONTS (construct None))
  ∧ (present AVAILABLE_FONTS self →
     present AVAILABLE_FONTS (fst (SettingsManager.run AVAILABLE_FONTS c self)))
  ∧ (resolvable AVAILABLE_FONTS self →
     none_free AVAILABLE_FONTS c = true →
     resolvable AVAILABLE_FONTS (fst (SettingsManager.run AVAILABLE_FONTS c self))).
Proof.
  split; [split|split].
  - intros k Hk. rewrite construct_fresh. cbn [SettingsManager._settings].
    rewrite odict_get_copy. by apply recognized_default.
  - apply resolvable_entries. intros k Hk. rewrite construct_fresh.
    cbn [SettingsManager._settings]. rewrite odict_get_copy.
    intros Hd. by eapply default_is_not_None.
  - intros Hpres k Hk.
    pose proof (run_entry_after AVAILABLE_FONTS c self k Hk) as Hentry.
    remember (settings_of (fst (SettingsManager.run _ c self)) !! k) as entry.
    destruct Hentry; eauto.
    by apply recognized_default.
  - intros Hres Hfree. apply resolvable_entries. intros k Hk.
    pose proof (run_entry_after AVAILABLE_FONTS c self k Hk) as Hentry.
    remember (settings_of (fst (SettingsManager.run _ c self)) !! k) as entry.
    destruct Hentry as [|value Hvalue|store dv -> Hdv|].
    + by apply (proj1 (resolvable_entries AVAILABLE_FONTS self) Hres).
    + intros [= ->]. by specialize (Hvalue Hfree).
    + intros [= Hnone]. by eapply loaded_value_not_None.
    + intros Hd. by eapply default_is_not_None.
Qed.

End properties.

(** C8. The display name derived from [Inter-Regular.ttf] is [Inter] and the
    one derived from [Some_Font-VariableFont.otf] is [Some Font]; a scan of a
    directory holding the two files yields exactly these two names. *)
Theorem C8_display_names :
  display_name_of "Inter-Regular.ttf" = "Inter"
  ∧ display_name_of "Some_Font-VariableFont.otf" = "Some Font"
  ∧ scan_available_fonts example_host
    = Ok [ ("Inter", "/app/fonts/Inter-Regular.ttf");
           ("Some Font", "/app/fonts/Some_Font-VariableFont.otf") ].
Proof. by vm_compute. Qed.

(** C9. When no font directory is found the scan returns the empty catalog
    without raising, the module loads, and the default of [font_name] is
    [Roboto]; whenever the module loads with a catalog that is not empty the
    default of [font_name] is the catalog's first name. *)
Theorem C9_font_name_default (h : Host) :
  get_fonts_directory h = Ok None →
  scan_available_fonts h = Ok []
  ∧ load_module h = Ok ([], DEFAULT_SETTINGS [])
  ∧ odict.get "font_name" (DEFAULT_SETTINGS []) = Some (PStr "Roboto")
  ∧ (∀ h' name path rest defaults,
       load_module h' = Ok ((name, path) :: rest, defaults) →
       odict.get "font_name" defaults = Some (PStr name)).
Proof.
  intros Hdir.
  assert (scan_available_fonts h = Ok []) as Hscan.
  { unfold scan_available_fonts. by rewrite Hdir. }
  split; [done|]. split.
  { unfold load_module. by rewrite Hscan. }
  split; [done|].
  intros h' name path rest defaults. unfold load_module.
  destruct (scan_available_fonts h') as [fonts|e]; [|done].
  by intros [= -> <-].
Qed.

(** ** The properties at concrete inputs *)

Ltac by_decide :=
  unfold recognized; apply (bool_decide_unpack _); vm_compute; exact I.

Lemma C1_set_then_get_witness :
  recognized [] "font_scale"
  ∧ expected_type [] "font_scale" (PFloat float_two) = true
  ∧ snd (SettingsManager.get [] "font_scale" PNone
           (fst (SettingsManager.set "font_scale" (PFloat float_two)
                   (initialized_manager readonly_store))))
    = Ok (PFloat float_two).
Proof.
  split; [by_decide|]. split; [reflexivity|].
  apply (C1_set_then_get []); [by_decide | reflexivity].
Defined.

Lemma C2_persisted_value_survives_witness :
  let store := empty_store in
  let self := initialized_manager store in
  let self' := fst (SettingsManager.set "launch_maximized" (PBool true) self) in
  let store' := fst (JsonStore.put store "launch_maximized"
                       {[ "value" := PBool true ]}) in
  snd (SettingsManager.initialize [] (store_reopen store') fresh_manager) = Ok tt
  ∧ snd (SettingsManager.get [] "launch_maximized" PNone
           (fst (SettingsManager.initialize [] (store_reopen store') fresh_manager)))
    = Ok (PBool true).
Proof.
  intros store self self' store'.
  apply (C2_persisted_value_survives [] self self' store store'
           {| JsonStore._data := JsonStore.on_disk store';
              JsonStore.on_disk := JsonStore.on_disk store';
              JsonStore.writable := true |}).
  - by_decide.
  - vm_compute; reflexivity.
  - vm_compute; reflexivity.
  - vm_compute; reflexivity.
  - vm_compute; reflexivity.
Defined.

Lemma C3_resolvable_preserved_witness :
  resolvable [] fresh_manager
  ∧ none_free [] (SettingsManager.Initialize (Ok edited_store)) = true
  ∧ resolvable []
      (fst (SettingsManager.run [] (SettingsManager.Initialize (Ok edited_store))
              fresh_manager)).
Proof.
  assert (resolvable [] fresh_manager) as Hfresh.
  { intros k Hk. apply list_elem_of_In in Hk. simpl in Hk.
    destruct Hk as [<-|[<-|[<-|[]]]]; vm_compute; discriminate. }
  split; [exact Hfresh|]. split; [vm_compute; reflexivity|].
  apply (C3_resolvable_preserved [] (SettingsManager.Initialize (Ok edited_store))
           fresh_manager); [exact Hfresh | vm_compute; reflexivity].
Defined.

(** C3 as stated fails: assigning [None] to [font_name] is an operation of
    the store, and after it [get('font_name')] is [None]. *)
Lemma C3_counterexample :
  resolvable [] fresh_manager
  ∧ recognized [] "font_name"
  ∧ snd (SettingsManager.get [] "font_name" PNone
           (fst (SettingsManager.run [] (SettingsManager.SetFontName PNone)
                   fresh_manager)))
    = Ok PNone
  ∧ ¬ resolvable []
        (fst (SettingsManager.run [] (SettingsManager.SetFontName PNone)
                fresh_manager)).
Proof.
  split.
  { intros k Hk. apply list_elem_of_In in Hk. simpl in Hk.
    destruct Hk as [<-|[<-|[<-|[]]]]; vm_compute; discriminate. }
  split; [by_decide|]. split; [vm_compute; reflexivity|].
  intros Hres. apply (Hres "font_name"); [by_decide | vm_compute; reflexivity].
Qed.

Lemma C5_initialize_loads_witness :
  loadable [] edited_store
  ∧ odict.get "font_scale" (DEFAULT_SETTINGS []) = Some (PFloat float_one)
  ∧ SettingsManager._settings (initialized_manager edited_store) !! "font_scale"
    = Some (PFloat float_two).
Proof.
  assert (loadable [] edited_store) as Hstore
    by (intros key _; eexists; reflexivity).
  split; [exact Hstore|]. split; [reflexivity|].
  destruct (C5_initialize_loads [] edited_store fresh_manager "font_scale"
              (PFloat float_one) Hstore eq_refl)
    as (_ & _ & _ & _ & _ & _ & _ & Hstored & _).
  apply (Hstored {[ "value" := PFloat float_two ]}); vm_compute; reflexivity.
Defined.

(** C5 as stated fails: over a settings file that holds [null] the [exists]
    test of the first key raises, outside the [try], and the exception
    leaves the loading phase and [initialize()]. *)
Lemma C5_counterexample :
  odict.get "font_name" (DEFAULT_SETTINGS []) = Some (PStr "Roboto")
  ∧ store_exists non_object_store "font_name" = Raise TypeError
  ∧ snd (SettingsManager.initialize [] (Ok non_object_store) fresh_manager)
    = Raise TypeError
  ∧ snd (SettingsManager._load_settings []
           (fst (SettingsManager.initialize [] (Ok non_object_store) fresh_manager)))
    = Raise TypeError.
Proof. repeat split; vm_compute; reflexivity. Qed.

Lemma C6_empty_store_defaults_witness :
  (∀ key, store_exists empty_store key = Ok false)
  ∧ odict.get "font_name" (DEFAULT_SETTINGS []) = Some (PStr "Roboto")
  ∧ snd (SettingsManager.get [] "font_name" PNone (initialized_manager empty_store))
    = Ok (PStr "Roboto").
Proof.
  split; [intros key; reflexivity|]. split; [reflexivity|].
  apply (C6_empty_store_defaults [] empty_store "font_name" (PStr "Roboto"));
    [intros key; reflexivity | reflexivity].
Defined.

Lemma C9_font_name_default_witness :
  get_fonts_directory bare_host = Ok None
  ∧ scan_available_fonts bare_host = Ok []
  ∧ odict.get "font_name" (DEFAULT_SETTINGS []) = Some (PStr "Roboto").
Proof.
  split; [reflexivity|].
  destruct (C9_font_name_default bare_host eq_refl) as (Hscan & _ & Hdef & _).
  split; [exact Hscan | exact Hdef].
Defined.

Lemma C10_set_frame_witness :
  "font_scale" ≠ "font_name"
  ∧ snd (SettingsManager.get [] "font_scale" PNone
           (fst (SettingsManager.set "font_name" (PStr "Inter")
                   (initialized_manager edited_store))))
    = Ok (PFloat float_two).
Proof.
  split; [discriminate|].
  destruct (C10_set_frame [] (initialized_manager edited_store)
              "font_name" (PStr "Inter") "font_scale" PNone)
    as (_ & Hget & _); [discriminate|].
  rewrite Hget. vm_compute; reflexivity.
Defined.

(** ** More on the font scanner *)

Lemma odict_get_set_eq {V} k (v : V) (d : odict.t V) :
  odict.get k (odict.set k v d) = Some v.
Proof.
  induction d as [|[k' v'] d IH]; simpl.
  - by rewrite String.eqb_refl.
  - destruct (String.eqb_spec k k') as [->|Hne]; simpl.
    + by rewrite String.eqb_refl.
    + by destruct (String.eqb_spec k k').
Qed.

Lemma odict_get_set_ne {V} k k' (v : V) (d : odict.t V) :
  k ≠ k' → odict.get k' (odict.set k v d) = odict.get k' d.
Proof.
  intros Hne. induction d as [|[k0 v0] d IH]; simpl.
  - by destruct (String.eqb_spec k' k) as [->|].
  - destruct (String.eqb_spec k k0) as [->|Hk0]; simpl.
    + by destruct (String.eqb_spec k' k0) as [->|].
    + by rewrite IH.
Qed.

Lemma odict_keys_set {V} k x (v : V) (d : odict.t V) :
  x ∈ odict.keys (odict.set k v d) ↔ x = k ∨ x ∈ odict.keys d.
Proof.
  rewrite !odict_get_keys. destruct (decide (k = x)) as [->|Hne].
  - rewrite odict_get_set_eq. split; eauto.
  - rewrite odict_get_set_ne by done. split; [eauto|]. by intros [->|?].
Qed.

Lemma odict_set_NoDup {V} k (v : V) (d : odict.t V) :
  NoDup (odict.keys d) → NoDup (odict.keys (odict.set k v d)).
Proof.
  induction d as [|[k' v'] d IH]; simpl.
  - intros _. apply NoDup_singleton.
  - rewrite NoDup_cons. intros [Hfresh Hnd].
    destruct (String.eqb_spec k k') as [->|Hne]; simpl.
    + by apply NoDup_cons.
    + apply NoDup_cons. split; [|by apply IH].
      rewrite odict_keys_set. intros [->|?]; done.
Qed.

Lemma odict_get_elem {V} k (v : V) (d : odict.t V) :
  odict.get k d = Some v → (k, v) ∈ d.
Proof.
  induction d as [|[k' v'] d IH]; simpl; [done|].
  destruct (String.eqb_spec k k') as [->|Hne].
  - intros [= ->]. apply list_elem_of_here.
  - intros Hget. by apply list_elem_of_further, IH.
Qed.

Lemma odict_elem_get {V} k (v : V) (d : odict.t V) :
  NoDup (odict.keys d) → (k, v) ∈ d → odict.get k d = Some v.
Proof.
  induction d as [|[k' v'] d IH]; simpl.
  - by intros _ ?%elem_of_nil.
  - rewrite NoDup_cons, elem_of_cons. intros [Hfresh Hnd] [[= <- <-]|Hin].
    + by rewrite String.eqb_refl.
    + destruct (String.eqb_spec k k') as [->|Hne]; [|by apply IH].
      exfalso. apply Hfresh. apply list_elem_of_In.
      apply list_elem_of_In, (in_map fst) in Hin. done.
Qed.

Lemma last_match_Some name paths p :
  last_match name paths = Some p → p ∈ paths ∧ display_name_of p = name.
Proof.
  induction paths as [|q paths IH]; simpl; [done|].
  destruct (last_match name paths) as [later|].
  - intros [= <-]. destruct (IH eq_refl). split; [by right | done].
  - destruct (String.eqb_spec (display_name_of q) name); [|done].
    intros [= <-]. split; [by left | done].
Qed.

Lemma last_match_elem p paths :
  p ∈ paths → is_Some (last_match (display_name_of p) paths).
Proof.
  induction paths as [|q paths IH]; [by intros ?%elem_of_nil|].
  rewrite elem_of_cons. simpl. intros [->|Hin].
  - destruct (last_match _ paths); [eauto|]. rewrite String.eqb_refl. eauto.
  - destruct (IH Hin) as [later ->]. eauto.
Qed.

Lemma last_match_None name paths :
  last_match name paths = None ↔ ∀ p, p ∈ paths → display_name_of p ≠ name.
Proof.
  split.
  - intros Hnone p Hin <-. apply last_match_elem in Hin as [? Hsome]. congruence.
  - intros Hall. destruct (last_match name paths) as [p|] eqn:Hm; [|done].
    apply last_match_Some in Hm as [Hin Hname]. by destruct (Hall p Hin).
Qed.

Lemma last_match_app name before after :
  last_match name (before ++ after) =
    match last_match name after with
    | Some p => Some p
    | None => last_match name before
    end.
Proof.
  induction before as [|q before IH]; simpl.
  - by destruct (last_match name after).
  - rewrite IH. by destruct (last_match name after).
Qed.

(** Looking a name up after a run of assignments: the last assigned path of
    that name, or what was there before. *)
Lemma assign_all_get paths fonts name :
  odict.get name (assign_all paths fonts) =
    match last_match name paths with
    | Some p => Some p
    | None => odict.get name fonts
    end.
Proof.
  revert fonts. induction paths as [|q paths IH]; intros fonts; [done|].
  unfold assign_all in *. cbn [foldl last_match]. rewrite IH.
  destruct (last_match name paths); [done|].
  destruct (String.eqb_spec (display_name_of q) name) as [<-|Hne].
  - apply odict_get_set_eq.
  - by apply odict_get_set_ne.
Qed.

Lemma assign_all_NoDup paths fonts :
  NoDup (odict.keys fonts) → NoDup (odict.keys (assign_all paths fonts)).
Proof.
  revert fonts. induction paths as [|q paths IH]; intros fonts Hnd; [done|].
  apply IH. by apply odict_set_NoDup.
Qed.

Lemma append_truthy a b : pystr.truthy a = true → pystr.truthy (a +:+ b) = true.
Proof. by destruct a. Qed.

Lemma join_truthy a b :
  pystr.truthy b = true → pystr.truthy (os_path.join a b) = true.
Proof.
  intros Hb. unfold os_path.join.
  destruct (pystr.startswith "/" b); [done|].
  destruct (pystr.truthy a) eqn:Ha; [|done]. cbn [negb].
  destruct (pystr.rfind os_path.slash a) as [i|]; [|by apply append_truthy].
  destruct (Nat.eqb (S i) (String.length a)); by apply append_truthy.
Qed.

(** A directory that [get_fonts_directory] returns passed [isdir] and has a
    name, so the scan's own test of it always succeeds. *)
Lemma get_fonts_directory_found h d :
  get_fonts_directory h = Ok (Some d) →
  os_path_isdir h d = true ∧ pystr.truthy d = true.
Proof.
  unfold get_fonts_directory. destruct (os_getcwd h) as [cwd|]; [|done]. simpl.
  destruct (os_path_isdir h (os_path.join cwd "fonts")) eqn:Hcwd.
  { intros [= <-]. split; [done | by apply join_truthy]. }
  destruct (sys_frozen h); [|done].
  destruct (sys_MEIPASS h) as [meipass|]; [|done].
  destruct (os_path_isdir h (os_path.join meipass "fonts")) eqn:Hbundle; [|done].
  intros [= <-]. split; [done | by apply join_truthy].
Qed.

Lemma scan_found h d :
  get_fonts_directory h = Ok (Some d) →
  scan_available_fonts h = Ok (assign_all (font_matches h d) []).
Proof.
  intros Hdir. destruct (get_fonts_directory_found h d Hdir) as [Hisdir Hname].
  unfold scan_available_fonts. rewrite Hdir. simpl. rewrite Hname, Hisdir. simpl.
  unfold assign_all, font_matches. simpl. by rewrite !foldl_app.
Qed.

Lemma occurs_app c a b :
  pystr.occurs c (a +:+ b) = pystr.occurs c a || pystr.occurs c b.
Proof.
  induction a as [|x a IH]; simpl; [done|]. by rewrite IH, orb_assoc.
Qed.

(** A replacement brings in no character that was in neither the string nor
    the replacement text. *)
Lemma replace_go_occurs c old new s skip :
  pystr.occurs c (pystr.replace_go old new skip s) = true →
  pystr.occurs c new = true ∨ pystr.occurs c s = true.
Proof.
  revert skip. induction s as [|a s IH]; intros skip; simpl.
  - destruct old; [eauto | done].
  - destruct skip as [|n].
    + destruct (pystr.startswith old (String a s)).
      * destruct old as [|o old'].
        -- rewrite occurs_app. simpl. rewrite !orb_true_iff.
           intros [?|[?|Hrec]]; [eauto | eauto |].
           destruct (IH _ Hrec); eauto.
        -- rewrite occurs_app, orb_true_iff. intros [?|Hrec]; [eauto|].
           rewrite orb_true_iff. destruct (IH _ Hrec); eauto.
      * simpl. rewrite !orb_true_iff. intros [?|Hrec]; [eauto|].
        destruct (IH _ Hrec); eauto.
    + intros Hrec. rewrite orb_true_iff. destruct (IH _ Hrec); eauto.
Qed.

Lemma replace_absent c old new s :
  pystr.occurs c new = false → pystr.occurs c s = false →
  pystr.occurs c (pystr.replace old new s) = false.
Proof.
  intros Hnew Hs. apply not_true_is_false. intros Hocc.
  apply replace_go_occurs in Hocc as [?|?]; congruence.
Qed.

Lemma append_empty_l s : "" +:+ s = s.
Proof. reflexivity. Qed.

Lemma append_cons x a b : String x a +:+ b = String x (a +:+ b).
Proof. reflexivity. Qed.

(** Replacing a character by another one leaves no occurrence of it. *)
Lemma replace_char_gone c d s :
  c ≠ d →
  pystr.occurs c (pystr.replace (String c "") (String d "") s) = false.
Proof.
  intros Hne. unfold pystr.replace. induction s as [|a s IH]; [done|].
  simpl. destruct (Ascii.eqb_spec c a) as [<-|Hca]; simpl.
  - rewrite append_empty_l, IH. by destruct (Ascii.eqb_spec d c) as [->|].
  - rewrite IH. by destruct (Ascii.eqb_spec a c) as [->|].
Qed.

Lemma lstrip_absent c s :
  pystr.occurs c s = false → pystr.occurs c (pystr.lstrip s) = false.
Proof.
  induction s as [|a s IH]; simpl; [done|].
  rewrite orb_false_iff. intros [Ha Hs].
  destruct (pystr.isspace a); [by apply IH|]. simpl. by rewrite Ha, Hs.
Qed.

Lemma rstrip_absent c s :
  pystr.occurs c s = false → pystr.occurs c (pystr.rstrip s) = false.
Proof.
  induction s as [|a s IH]; simpl; [done|].
  rewrite orb_false_iff. intros [Ha Hs]. specialize (IH Hs).
  destruct (pystr.rstrip s) as [|b r].
  - destruct (pystr.isspace a); [done|]. simpl. by rewrite Ha.
  - simpl in *. by rewrite Ha, IH.
Qed.

Lemma strip_absent c s :
  pystr.occurs c s = false → pystr.occurs c (pystr.strip s) = false.
Proof. intros Hs. by apply rstrip_absent, lstrip_absent. Qed.

Lemma rstrip_idempotent s : pystr.rstrip (pystr.rstrip s) = pystr.rstrip s.
Proof.
  induction s as [|a s IH]; simpl; [done|].
  destruct (pystr.rstrip s) as [|b r] eqn:Hr.
  - destruct (pystr.isspace a) eqn:Ha; [done|]. simpl. by rewrite Ha.
  - simpl in *. by rewrite IH.
Qed.

Lemma lstrip_rstrip_lstrip s :
  pystr.lstrip (pystr.rstrip (pystr.lstrip s)) = pystr.rstrip (pystr.lstrip s).
Proof.
  induction s as [|a s IH]; simpl; [done|].
  destruct (pystr.isspace a) eqn:Ha; [done|]. simpl.
  destruct (pystr.rstrip s); rewrite ?Ha; simpl; by rewrite ?Ha.
Qed.

Lemma strip_idempotent s : pystr.strip (pystr.strip s) = pystr.strip s.
Proof.
  unfold pystr.strip. by rewrite lstrip_rstrip_lstrip, rstrip_idempotent.
Qed.

Lemma display_name_of_unfold font_path :
  display_name_of font_path =
    let name := fst (os_path.splitext (os_path.basename font_path)) in
    pystr.strip (pystr.replace "VariableFont" ""
      (pystr.strip (pystr.replace "VariableFont wdth,wght" ""
        (pystr.strip (pystr.replace "Regular" ""
          (pystr.replace "_" " " (pystr.replace "-" " " name))))))).
Proof. reflexivity. Qed.

Lemma font_matches_elem h d path :
  path ∈ font_matches h d ↔
  ∃ ext, ext ∈ font_extensions ∧ path ∈ glob_glob h (os_path.join d ext).
Proof.
  unfold font_matches, font_extensions. simpl.
  rewrite !elem_of_app, elem_of_nil. split.
  - intros [?|[?|[?|[?|[]]]]]; eexists; (split; [|eassumption]);
      repeat (first [apply list_elem_of_here | apply list_elem_of_further]).
  - intros (ext & Hext & Hin).
    repeat (apply elem_of_cons in Hext as [->|Hext]; [tauto|]).
    by apply elem_of_nil in Hext.
Qed.

Lemma scan_raises_with_directory h e :
  scan_available_fonts h = Raise e ↔ get_fonts_directory h = Raise e.
Proof.
  unfold scan_available_fonts.
  destruct (get_fonts_directory h) as [[d|]|e0]; simpl;
    [destruct (pystr.truthy d && os_path_isdir h d)|..];
    split; congruence.
Qed.

Lemma scan_entry_name h fonts name path :
  scan_available_fonts h = Ok fonts → (name, path) ∈ fonts →
  name = display_name_of path.
Proof.
  intros Hscan Hin.
  destruct (get_fonts_directory h) as [[d|]|e] eqn:Hdir.
  - rewrite (scan_found h d Hdir) in Hscan. injection Hscan as <-.
    apply odict_elem_get in Hin; [|apply assign_all_NoDup, NoDup_nil_2].
    rewrite assign_all_get in Hin.
    destruct (last_match name (font_matches h d)) as [p|] eqn:Hlast; [|done].
    injection Hin as ->. by apply last_match_Some in Hlast as [_ Hname].
  - unfold scan_available_fonts in Hscan. rewrite Hdir in Hscan.
    injection Hscan as <-. by apply elem_of_nil in Hin.
  - unfold scan_available_fonts in Hscan. by rewrite Hdir in Hscan.
Qed.

(** ** Further properties of the font scanner *)

(** X1. With a working directory, [get_fonts_directory] prefers [fonts]
    under it to the bundle; it looks into the bundle only in a frozen
    build; and whatever it returns passed the directory test. *)
Theorem X1_fonts_directory_choice (h : Host) cwd :
  os_getcwd h = Ok cwd →
  (os_path_isdir h (os_path.join cwd "fonts") = true →
     get_fonts_directory h = Ok (Some (os_path.join cwd "fonts")))
  ∧ (os_path_isdir h (os_path.join cwd "fonts") = false →
     sys_frozen h = false → get_fonts_directory h = Ok None)
  ∧ (∀ d, get_fonts_directory h = Ok (Some d) →
       os_path_isdir h d = true
       ∧ (d = os_path.join cwd "fonts"
          ∨ (os_path_isdir h (os_path.join cwd "fonts") = false
             ∧ sys_frozen h = true
             ∧ ∃ meipass, sys_MEIPASS h = Some meipass
                          ∧ d = os_path.join meipass "fonts"))).
Proof.
  intros Hcwd. unfold get_fonts_directory. rewrite Hcwd. simpl.
  split; [by intros ->|]. split; [by intros -> ->|].
  intros d.
  destruct (os_path_isdir h (os_path.join cwd "fonts")) eqn:Hhere.
  { intros [= <-]. eauto. }
  destruct (sys_frozen h); [|done].
  destruct (sys_MEIPASS h) as [meipass|]; [|done].
  destruct (os_path_isdir h (os_path.join meipass "fonts")) eqn:Hbundle; [|done].
  intros [= <-]. split; [done|]. right. eauto.
Qed.

(** X2. The scan raises in exactly two situations, both inherited from
    [get_fonts_directory]: [os.getcwd()] raises, or a frozen build without
    [fonts] in the working directory has no [sys._MEIPASS]. *)
Theorem X2_scan_raises_exactly_when (h : Host) e :
  scan_available_fonts h = Raise e ↔
  os_getcwd h = Raise e
  ∨ (∃ cwd, os_getcwd h = Ok cwd
            ∧ os_path_isdir h (os_path.join cwd "fonts") = false
            ∧ sys_frozen h = true ∧ sys_MEIPASS h = None
            ∧ e = AttributeError "_MEIPASS").
Proof.
  rewrite scan_raises_with_directory. unfold get_fonts_directory.
  destruct (os_getcwd h) as [cwd|e0]; simpl.
  - destruct (os_path_isdir h (os_path.join cwd "fonts")) eqn:Hhere.
    { split; [done|]. intros [?|(? & [= <-] & ? & _)]; congruence. }
    destruct (sys_frozen h).
    2: { split; [done|]. intros [?|(? & _ & _ & ? & _)]; congruence. }
    destruct (sys_MEIPASS h) as [meipass|].
    + destruct (os_path_isdir h (os_path.join meipass "fonts"));
        (split; [done|]; intros [?|(? & _ & _ & _ & ? & _)]; congruence).
    + split.
      * intros [= <-]. right. exists cwd. eauto 10.
      * intros [?|(? & _ & _ & _ & _ & ->)]; [congruence | done].
  - split.
    + intros [= ->]. by left.
    + intros [[= ->]|(? & ? & _)]; [done | congruence].
Qed.

(** X3. In a scanned catalog no display name occurs twice, and every entry
    pairs a path that one of the four globs yielded with the display name
    derived from that path. *)
Theorem X3_catalog_entries (h : Host) fonts :
  scan_available_fonts h = Ok fonts →
  NoDup (odict.keys fonts)
  ∧ (∀ name path, (name, path) ∈ fonts →
       name = display_name_of path
       ∧ ∃ d ext, get_fonts_directory h = Ok (Some d)
                  ∧ ext ∈ font_extensions
                  ∧ path ∈ glob_glob h (os_path.join d ext)).
Proof.
  intros Hscan.
  destruct (get_fonts_directory h) as [[d|]|e] eqn:Hdir.
  - rewrite (scan_found h d Hdir) in Hscan. injection Hscan as <-.
    assert (NoDup (odict.keys (assign_all (font_matches h d) []))) as Hnd
      by apply assign_all_NoDup, NoDup_nil_2.
    split; [done|]. intros name path Hin.
    apply (odict_elem_get _ _ _ Hnd) in Hin.
    rewrite assign_all_get in Hin.
    destruct (last_match name (font_matches h d)) as [p|] eqn:Hlast; [|done].
    injection Hin as ->. apply last_match_Some in Hlast as [Hin Hname].
    split; [done|]. apply font_matches_elem in Hin as (ext & ? & ?). eauto.
  - unfold scan_available_fonts in Hscan. rewrite Hdir in Hscan.
    injection Hscan as <-. split; [apply NoDup_nil_2|].
    by intros ? ? ?%elem_of_nil.
  - unfold scan_available_fonts in Hscan. by rewrite Hdir in Hscan.
Qed.

(** X4. Scanning and then looking up: every path a glob yielded can be found
    again under its display name, as a path with that same display name; a
    name that no yielded path derives is unknown to [get_font_path]. *)
Theorem X4_scanned_fonts_resolve (h : Host) d fonts :
  get_fonts_directory h = Ok (Some d) →
  scan_available_fonts h = Ok fonts →
  (∀ ext path, ext ∈ font_extensions →
     path ∈ glob_glob h (os_path.join d ext) →
     ∃ found, get_font_path fonts (display_name_of path) = Some found
              ∧ display_name_of found = display_name_of path
              ∧ found ∈ font_matches h d)
  ∧ (∀ name, (∀ path, path ∈ font_matches h d → display_name_of path ≠ name) →
       get_font_path fonts name = None).
Proof.
  intros Hdir Hscan. rewrite (scan_found h d Hdir) in Hscan.
  injection Hscan as <-. unfold get_font_path. split.
  - intros ext path Hext Hin.
    assert (path ∈ font_matches h d) as Hm by (apply font_matches_elem; eauto).
    rewrite assign_all_get.
    destruct (last_match_elem _ _ Hm) as [found Hfound]. rewrite Hfound.
    apply last_match_Some in Hfound as [? ?]. eauto.
  - intros name Hnone. rewrite assign_all_get.
    by rewrite (proj2 (last_match_None name _) Hnone).
Qed.

(** X5. Last scanned wins: when several yielded paths share a display name,
    the catalog keeps the one that comes last in scan order (the four
    patterns in turn, each in glob order). *)
Theorem X5_last_scanned_wins (h : Host) d fonts
    (before : list string) (path : string) (after : list string) :
  get_fonts_directory h = Ok (Some d) →
  scan_available_fonts h = Ok fonts →
  font_matches h d = (before ++ path :: after)%list →
  (∀ later, later ∈ after → display_name_of later ≠ display_name_of path) →
  get_font_path fonts (display_name_of path) = Some path.
Proof.
  intros Hdir Hscan Hsplit Hlast. rewrite (scan_found h d Hdir) in Hscan.
  injection Hscan as <-. unfold get_font_path.
  rewrite assign_all_get, Hsplit, last_match_app. cbn [last_match].
  rewrite (proj2 (last_match_None _ _) Hlast).
  by rewrite String.eqb_refl.
Qed.

(** X6. A display name has no whitespace at either end and contains neither
    a dash nor an underscore, whatever the file is called. *)
Theorem X6_display_name_shape font_path :
  pystr.strip (display_name_of font_path) = display_name_of font_path
  ∧ pystr.occurs dash (display_name_of font_path) = false
  ∧ pystr.occurs underscore (display_name_of font_path) = false.
Proof.
  rewrite display_name_of_unfold. cbv zeta.
  set (name := fst (os_path.splitext (os_path.basename font_path))).
  split; [apply strip_idempotent|].
  split; do 3 (apply strip_absent; apply replace_absent; [done|]).
  - apply replace_absent; [done|].
    apply (replace_char_gone dash). by vm_compute.
  - apply (replace_char_gone underscore). by vm_compute.
Qed.

(** X7. When the module loads with a catalog that is not empty, the default
    [font_name] is a catalog name and [get_font_path] resolves it to a
    scanned file of that name; with an empty catalog the default name has
    no font file. *)
Theorem X7_default_font_resolves (h : Host) fonts defaults :
  load_module h = Ok (fonts, defaults) →
  (fonts = [] →
     odict.get "font_name" defaults = Some (PStr "Roboto")
     ∧ get_font_path fonts "Roboto" = None)
  ∧ (fonts ≠ [] →
     ∃ name path,
       odict.get "font_name" defaults = Some (PStr name)
       ∧ get_font_path fonts name = Some path
       ∧ display_name_of path = name).
Proof.
  unfold load_module.
  destruct (scan_available_fonts h) as [scanned|] eqn:Hscan; [|done].
  simpl. intros [= <- <-]. split; [by intros ->|].
  destruct scanned as [|[name path] rest]; [done|]. intros _.
  exists name, path. unfold get_font_path. simpl. rewrite String.eqb_refl.
  split; [done|]. split; [done|].
  symmetry. apply (scan_entry_name h _ _ _ Hscan), list_elem_of_here.
Qed.

(** ** POSIX paths: joining a file name and taking the directory back *)

Lemma length_append a b :
  String.length (a +:+ b) = (String.length a + String.length b)%nat.
Proof. induction a as [|x a IH]; rewrite ?append_empty_l, ?append_cons; simpl; [done|]. by rewrite IH. Qed.

Lemma append_assoc a b c : (a +:+ b) +:+ c = a +:+ (b +:+ c).
Proof.
  induction a as [|x a IH]; [done|].
  change (String x ((a +:+ b) +:+ c) = String x (a +:+ (b +:+ c))).
  by rewrite IH.
Qed.

Lemma rfind_absent c s : pystr.occurs c s = false → pystr.rfind c s = None.
Proof.
  induction s as [|a s IH]; simpl; [done|].
  rewrite orb_false_iff. intros [Ha Hs]. by rewrite (IH Hs), Ha.
Qed.

Lemma rfind_lt c s i : pystr.rfind c s = Some i → (i < String.length s)%nat.
Proof.
  revert i. induction s as [|a s IH]; intros i; simpl; [done|].
  destruct (pystr.rfind c s) as [j|].
  - intros [= <-]. specialize (IH j eq_refl). lia.
  - destruct (Ascii.eqb a c); [|done]. intros [= <-]. lia.
Qed.

Lemma rfind_append c a b :
  pystr.rfind c (a +:+ b) =
    match pystr.rfind c b with
    | Some i => Some (String.length a + i)%nat
    | None => pystr.rfind c a
    end.
Proof.
  induction a as [|x a IH]; rewrite ?append_empty_l, ?append_cons; simpl.
  - by destruct (pystr.rfind c b).
  - rewrite IH. by destruct (pystr.rfind c b).
Qed.

Lemma take_append a b n :
  pystr.take (String.length a + n) (a +:+ b) = a +:+ pystr.take n b.
Proof. induction a as [|x a IH]; rewrite ?append_empty_l, ?append_cons; simpl; [done|]. by rewrite IH. Qed.

Lemma drop_append a b n :
  pystr.drop (String.length a + n) (a +:+ b) = pystr.drop n b.
Proof. induction a as [|x a IH]; rewrite ?append_empty_l, ?append_cons; simpl; [done|]. by rewrite IH. Qed.

Lemma all_char_append c a b :
  pystr.all_char c (a +:+ b) = pystr.all_char c a && pystr.all_char c b.
Proof.
  induction a as [|x a IH]; rewrite ?append_empty_l, ?append_cons; simpl; [done|]. by rewrite IH, andb_assoc.
Qed.

Lemma rstrip_char_tail c t :
  pystr.occurs c t = false →
  pystr.rstrip_char c (t +:+ String c "") = t.
Proof.
  induction t as [|a t IH]; rewrite ?append_empty_l, ?append_cons; simpl.
  - intros _. by rewrite Ascii.eqb_refl.
  - rewrite orb_false_iff. intros [Ha Ht]. rewrite (IH Ht).
    destruct t; [by rewrite Ha | done].
Qed.

Lemma rstrip_char_keeps c pre x t :
  Ascii.eqb x c = false →
  pystr.rstrip_char c (pre +:+ String x t)
  = pre +:+ String x (pystr.rstrip_char c t).
Proof.
  intros Hx. induction pre as [|a pre IH]; rewrite ?append_empty_l, ?append_cons; simpl.
  - destruct (pystr.rstrip_char c t); [by rewrite Hx | done].
  - rewrite IH. by destruct pre.
Qed.

(** Joining onto anything ends in the joined name. *)
Lemma join_ends_with a b :
  pystr.occurs os_path.slash b = false →
  ∃ pre, os_path.join a b = pre +:+ b.
Proof.
  intros Hb. unfold os_path.join.
  destruct (pystr.startswith "/" b); [by exists ""|].
  destruct (pystr.truthy a); cbn [negb]; [|by exists ""].
  destruct (pystr.rfind os_path.slash a) as [i|].
  - destruct (Nat.eqb (S i) (String.length a)); [by exists a|].
    exists (a +:+ "/"). by rewrite append_assoc.
  - exists (a +:+ "/"). by rewrite append_assoc.
Qed.

(** A file name joined onto a directory whose last component is [String x
    t] lands right behind it, and [dirname] and [basename] take the two
    apart again. *)
Lemma join_file_onto_component pre x t file :
  Ascii.eqb x os_path.slash = false →
  pystr.occurs os_path.slash t = false →
  pystr.occurs os_path.slash file = false →
  let dir := pre +:+ String x t in
  os_path.join dir file = dir +:+ "/" +:+ file
  ∧ os_path.dirname (dir +:+ "/" +:+ file) = dir
  ∧ os_path.basename (dir +:+ "/" +:+ file) = file.
Proof.
  intros Hx Ht Hfile dir.
  assert (pystr.rfind os_path.slash ("/" +:+ file) = Some 0%nat) as Hsep.
  { rewrite append_cons, append_empty_l. cbn [pystr.rfind].
    by rewrite (rfind_absent _ _ Hfile). }
  assert (pystr.rfind os_path.slash (dir +:+ "/" +:+ file)
          = Some (String.length dir + 0)%nat) as Hlast.
  { by rewrite rfind_append, Hsep. }
  split; [|split].
  - unfold os_path.join.
    assert (pystr.startswith "/" file = false) as ->.
    { destruct file as [|f file']; [done|].
      cbn [pystr.occurs] in Hfile. apply orb_false_iff in Hfile as [Hf _].
      change (Ascii.eqb os_path.slash f && true = false).
      by rewrite Ascii.eqb_sym, Hf. }
    assert (pystr.truthy dir = true) as -> by (subst dir; by destruct pre).
    cbn [negb].
    destruct (pystr.rfind os_path.slash dir) as [i|] eqn:Hi; [|done].
    assert (Nat.eqb (S i) (String.length dir) = false) as ->; [|done].
    apply Nat.eqb_neq. subst dir. rewrite rfind_append in Hi.
    rewrite length_append. simpl in *.
    rewrite (rfind_absent _ _ Ht), Hx in Hi.
    apply rfind_lt in Hi. lia.
  - unfold os_path.dirname. rewrite Hlast.
    replace (S (String.length dir + 0)) with (String.length dir + 1)%nat by lia.
    rewrite take_append.
    assert (pystr.take 1 ("/" +:+ file) = "/") as -> by done.
    assert (pystr.truthy (dir +:+ "/") = true) as ->
      by (subst dir; by destruct pre).
    assert (pystr.all_char os_path.slash (dir +:+ "/") = false) as ->.
    { subst dir. rewrite !all_char_append. simpl. rewrite Hx.
      by rewrite andb_false_r. }
    cbn [andb negb]. subst dir. rewrite append_assoc, append_cons.
    rewrite rstrip_char_keeps by done.
    pose proof (rstrip_char_tail os_path.slash t Ht) as Htail.
    change (String os_path.slash "") with "/" in Htail. by rewrite Htail.
  - unfold os_path.basename. rewrite Hlast.
    replace (S (String.length dir + 0)) with (String.length dir + 1)%nat by lia.
    by rewrite drop_append.
Qed.

(** ** Further properties of the settings path *)

(** X8. On a system with POSIX paths, when [_get_settings_path()] returns,
    [get_settings_directory()] names exactly the directory that
    [os.makedirs] was asked for and accepted, and the returned path is the
    file [settings.json] directly inside it. *)
Theorem X8_settings_directory_posix (sys : System) path :
  path_join sys = os_path.join →
  path_dirname sys = os_path.dirname →
  SettingsManager._get_settings_path sys = Ok path →
  ∃ dir, SettingsManager.get_settings_directory sys = Ok dir
         ∧ os_makedirs sys dir = None
         ∧ path = dir +:+ "/settings.json"
         ∧ os_path.basename path = "settings.json".
Proof.
  intros Hjoin Hdirname.
  unfold SettingsManager.get_settings_directory,
    SettingsManager._get_settings_path.
  rewrite Hjoin, Hdirname. cbv zeta.
  match goal with
  | |- context [os_makedirs sys ?d] => set (dir := d)
  end.
  assert (∃ pre x t, dir = pre +:+ String x t
                     ∧ Ascii.eqb x os_path.slash = false
                     ∧ pystr.occurs os_path.slash t = false)
    as (pre & x & t & Hshape & Hx & Ht).
  { subst dir.
    destruct (String.eqb (platform sys) "win");
      [|destruct (String.eqb (platform sys) "macosx");
        [|destruct (String.eqb (platform sys) "linux")]];
      match goal with
      | |- context [os_path.join ?a ?b] =>
          destruct (join_ends_with a b eq_refl) as [pre ->]
      end; by eexists pre, _, _.
  }
  destruct (os_makedirs sys dir) eqn:Hmk; [done|].
  intros [= <-]. cbn [result_bind].
  rewrite Hshape in *.
  destruct (join_file_onto_component pre x t "settings.json" Hx Ht eq_refl)
    as (Hfile & Hdir & Hbase).
  rewrite Hfile, Hdir, Hbase. eauto.
Qed.

(** ** Further properties of the settings manager *)
Section lifecycle.

Context {S : Type} `{AbstractStore S}.
Variable AVAILABLE_FONTS : odict.t string.

Abbreviation DEFAULTS := (DEFAULT_SETTINGS AVAILABLE_FONTS).
Abbreviation manager := (SettingsManager.t (S:=S)).
Abbreviation settings_of := SettingsManager._settings.
Abbreviation store_of := SettingsManager._store.
Abbreviation get := (SettingsManager.get AVAILABLE_FONTS).
Abbreviation set := SettingsManager.set.
Abbreviation run := (SettingsManager.run AVAILABLE_FONTS).
Abbreviation initialize := (SettingsManager.initialize AVAILABLE_FONTS).
Abbreviation construct := (SettingsManager.construct (S:=S) AVAILABLE_FONTS).

Lemma set_fields key value (self : manager) :
  SettingsManager._initialized (fst (set key value self))
  = SettingsManager._initialized self
  ∧ (is_Some (store_of self) → is_Some (store_of (fst (set key value self)))).
Proof.
  destruct (store_of self) as [store|] eqn:Hs.
  - rewrite (set_initialized _ _ _ _ Hs). simpl. eauto.
  - rewrite (set_uninitialized _ _ _ Hs). simpl. split; [done|].
    by intros [? ?].
Qed.

(** No call takes the singleton out of the constructed state or closes its
    store. *)
Lemma run_fields c (self : manager) :
  SettingsManager._initialized self = true →
  SettingsManager._initialized (fst (run c self)) = true
  ∧ (is_Some (store_of self) → is_Some (store_of (fst (run c self)))).
Proof.
  intros Hinit.
  destruct c as [|[store|e]| | | | | | | |];
    cbn [SettingsManager.run]; rewrite ?fst_returning_None;
    try (split; [done | by intros ?]);
    try (destruct (set_fields key value self) as [-> ?]; by split);
    try (unfold SettingsManager.font_name_setter,
           SettingsManager.font_scale_setter,
           SettingsManager.launch_maximized_setter;
         match goal with
         | |- context [SettingsManager.set ?k ?v self] =>
             destruct (set_fields k v self) as [-> ?]; by split
         end).
  - unfold SettingsManager.__init__. rewrite Hinit. by split.
  - destruct (initialize_fields AVAILABLE_FONTS store self) as [-> ->].
    split; [done|eauto].
Qed.

Lemma construct_initialized (inst : option manager) :
  SettingsManager._initialized (construct inst) = true.
Proof.
  unfold SettingsManager.construct, SettingsManager.__init__.
  by destruct (SettingsManager._initialized (SettingsManager.__new__ inst)) eqn:Hi.
Qed.

Lemma run_all_initialized calls (self : manager) :
  SettingsManager._initialized self = true →
  SettingsManager._initialized (run_all AVAILABLE_FONTS calls self) = true.
Proof.
  revert self. induction calls as [|c calls IH]; intros self Hinit; [done|].
  apply IH. by apply run_fields.
Qed.

Lemma run_present c (self : manager) :
  present AVAILABLE_FONTS self → present AVAILABLE_FONTS (fst (run c self)).
Proof.
  intros Hpres k Hk.
  pose proof (run_entry_after AVAILABLE_FONTS c self k Hk) as Hentry.
  remember (settings_of (fst (run c self)) !! k) as entry.
  destruct Hentry; eauto. by apply recognized_default.
Qed.

Lemma run_all_present calls (self : manager) :
  present AVAILABLE_FONTS self →
  present AVAILABLE_FONTS (run_all AVAILABLE_FONTS calls self).
Proof.
  revert self. induction calls as [|c calls IH]; intros self Hpres; [done|].
  apply IH. by apply run_present.
Qed.

Lemma construct_present : present AVAILABLE_FONTS (construct None).
Proof.
  intros k Hk. rewrite construct_fresh. cbn [SettingsManager._settings].
  rewrite odict_get_copy. by apply recognized_default.
Qed.

(** X9. After construction, through any sequence of calls, the singleton
    stays constructed: calling [SettingsManager()] again hands back the
    object as it is, without resetting a value, and a store once opened is
    never dropped by a later call. *)
Theorem X9_singleton_lifecycle (inst : option manager) calls c :
  let self := run_all AVAILABLE_FONTS calls (construct inst) in
  SettingsManager._initialized self = true
  ∧ construct (Some self) = self
  ∧ fst (run SettingsManager.Construct self) = self
  ∧ (is_Some (store_of self) → is_Some (store_of (fst (run c self)))).
Proof.
  intros self.
  assert (SettingsManager._initialized self = true) as Hinit
    by apply run_all_initialized, construct_initialized.
  split; [done|]. split; [|split].
  - unfold SettingsManager.construct, SettingsManager.__init__. simpl.
    by rewrite Hinit.
  - cbn [SettingsManager.run]. rewrite fst_returning_None.
    unfold SettingsManager.__init__. by rewrite Hinit.
  - by apply run_fields.
Qed.

(** X10. On a manager reached from a first construction by any sequence of
    calls, every recognized key has an entry, so [get(k, default)] returns
    that entry and the caller's default is never used. *)
Theorem X10_default_argument_unused calls k :
  recognized AVAILABLE_FONTS k →
  let self := run_all AVAILABLE_FONTS calls (construct None) in
  ∃ v, settings_of self !! k = Some v
       ∧ ∀ dflt, get k dflt self = (self, Ok v).
Proof.
  intros Hk self.
  destruct (run_all_present calls _ construct_present k Hk) as [v Hv].
  exists v. split; [done|]. intros dflt. by apply get_hit.
Qed.

(** X11. [initialize()] is idempotent: run a second time over the same
    store, it ends as the first run did, returning or raising the same
    exception, and leaves the manager exactly as the first run left it. *)
Theorem X11_initialize_idempotent store (self : manager) :
  initialize (Ok store) (fst (initialize (Ok store) self))
  = initialize (Ok store) self.
Proof.
  rewrite !initialize_opened.
  match goal with
  | |- _ = SettingsManager.for_each _ _ ?start => set (first := start)
  end.
  set (once := fst (SettingsManager.for_each (SettingsManager.load_one store)
                      DEFAULTS first)).
  destruct (loop_fields store DEFAULTS first) as [Hi Hs].
  cbv zeta in Hi, Hs. fold once in Hi, Hs.
  assert ({| SettingsManager._initialized := SettingsManager._initialized once;
             SettingsManager._store := Some store;
             SettingsManager._settings := settings_of once |} = once) as ->
    by (apply manager_eq; [done | by rewrite Hs | done]).
  apply loop_again, defaults_NoDup.
Qed.

(** X12. When the store's [exists] test answers for every recognized key,
    [initialize()] decides every recognized entry from the store alone: a
    [set] made before it, persisted or not, is overwritten, so two managers
    initialized over the same store agree on every recognized key.  An entry
    under an unrecognized key is left in the record, however the loading
    ends. *)
Theorem X12_initialize_overrides_memory store (self other : manager) key value k :
  (loadable AVAILABLE_FONTS store → recognized AVAILABLE_FONTS k →
     settings_of (fst (initialize (Ok store) (fst (set key value self)))) !! k
     = settings_of (fst (initialize (Ok store) other)) !! k)
  ∧ (¬ recognized AVAILABLE_FONTS key →
     settings_of (fst (initialize (Ok store) (fst (set key value self)))) !! key
     = Some value).
Proof.
  split.
  - intros Hstore [dv Hdv]%recognized_default.
    assert (∀ any : manager, snd (initialize (Ok store) any) = Ok tt) as Hret
      by (intros any; by apply initialize_returns).
    by rewrite !(initialize_lookup _ _ _ _ _ (Hret _) Hdv).
  - intros Hkey. rewrite initialize_other by done.
    rewrite set_settings. apply lookup_insert_eq.
Qed.

(** X13. Last write wins, and writes to different keys do not interfere: in
    the record, two [set]s on one key leave the second value, and two [set]s
    on different keys leave the same record in either order. *)
Theorem X13_sets_compose (self : manager) k1 v1 k2 v2 :
  (k1 = k2 →
     settings_of (fst (set k2 v2 (fst (set k1 v1 self))))
     = settings_of (fst (set k2 v2 self)))
  ∧ (k1 ≠ k2 →
     settings_of (fst (set k2 v2 (fst (set k1 v1 self))))
     = settings_of (fst (set k1 v1 (fst (set k2 v2 self)))))
  ∧ snd (get k2 PNone (fst (set k2 v2 (fst (set k1 v1 self))))) = Ok v2.
Proof.
  rewrite !set_settings. split; [|split].
  - intros ->. apply insert_insert_eq.
  - intros Hne. by apply insert_insert_ne.
  - erewrite get_hit; [done|]. rewrite set_settings. apply lookup_insert_eq.
Qed.

End lifecycle.

Section persistence.

Context {S : Type} `{AbstractStore S}.
Variable AVAILABLE_FONTS : odict.t string.

Abbreviation DEFAULTS := (DEFAULT_SETTINGS AVAILABLE_FONTS).
Abbreviation manager := (SettingsManager.t (S:=S)).
Abbreviation settings_of := SettingsManager._settings.
Abbreviation store_of := SettingsManager._store.
Abbreviation get := (SettingsManager.get AVAILABLE_FONTS).
Abbreviation set := SettingsManager.set.
Abbreviation initialize := (SettingsManager.initialize AVAILABLE_FONTS).
Abbreviation construct := (SettingsManager.construct (S:=S) AVAILABLE_FONTS).

(** What a [set] that returned normally on an open store did. *)
Lemma set_succeeded key value (self self' : manager) store :
  store_of self = Some store →
  set key value self = (self', Ok tt) →
  ∃ store', store_put store key {[ "value" := value ]} = (store', None)
            ∧ store_of self' = Some store'
            ∧ settings_of self' = <[key := value]> (settings_of self).
Proof.
  intros Hs Hset. rewrite (set_initialized _ _ _ _ Hs) in Hset.
  destruct (store_put store key {[ "value" := value ]}) as [written failure].
  simpl in Hset. destruct failure; [done|].
  injection Hset as <-. eauto.
Qed.

Lemma loaded_value_after_put `{!StoreLaws S} store store' key value k dv :
  store_put store key {[ "value" := value ]} = (store', None) →
  spec_loaded_value store' k dv
  = if decide (k = key) then value else spec_loaded_value store k dv.
Proof.
  intros Hput. unfold spec_loaded_value. case_decide as Hk.
  - subst k. rewrite (put_exists _ _ _ _ Hput), (put_get _ _ _ _ Hput).
    by rewrite lookup_singleton_eq.
  - by destruct (put_frame _ _ _ _ _ Hput Hk) as [-> ->].
Qed.

(** X14. When [initialize()] raises, the exception comes from one of three
    places.  If it comes from resolving the settings path or from opening
    the store, the manager is left exactly as it was.  Otherwise the store's
    [exists] test raised for some key inside the loading loop: the new store
    is already in place, the keys before that one hold their loaded values,
    and every other entry is as it was. *)
Theorem X14_failed_initialize
    (sys : System) (JsonStore : string → result S) (self : manager) e :
  snd (SettingsManager.initialize_in AVAILABLE_FONTS sys JsonStore self) = Raise e →
  let after := fst (SettingsManager.initialize_in AVAILABLE_FONTS sys JsonStore self) in
  (after = self
   ∧ (SettingsManager._get_settings_path sys = Raise e
      ∨ ∃ path, SettingsManager._get_settings_path sys = Ok path
                ∧ JsonStore path = Raise e))
  ∨ (∃ path store before key dv later,
       SettingsManager._get_settings_path sys = Ok path
       ∧ JsonStore path = Ok store
       ∧ DEFAULTS = (before ++ (key, dv) :: later)%list
       ∧ store_exists store key = Raise e
       ∧ SettingsManager._initialized after = SettingsManager._initialized self
       ∧ store_of after = Some store
       ∧ (∀ k d, odict.get k before = Some d →
            settings_of after !! k = Some (spec_loaded_value store k d))
       ∧ (∀ k, k ∉ odict.keys before →
            settings_of after !! k = settings_of self !! k)).
Proof.
  unfold SettingsManager.initialize_in.
  destruct (SettingsManager._get_settings_path sys) as [path|e0];
    cbn [result_bind].
  - destruct (JsonStore path) as [store|e0] eqn:Hopen.
    + intros Hraise. cbv zeta. right.
      destruct (initialize_fields AVAILABLE_FONTS store self) as [Hi Hs].
      rewrite initialize_opened in *.
      destruct (loop_raised _ _ _ _ Hraise (defaults_NoDup AVAILABLE_FONTS))
        as (before & key & dv & later & Hsplit & Hkey & Hload & Hkept).
      exists path, store, before, key, dv, later. eauto 10.
    + rewrite initialize_failed. cbn [fst snd]. intros [= ->]. left. eauto.
  - rewrite initialize_failed. cbn [fst snd]. intros [= ->]. left. eauto.
Qed.

(** X15. A key outside Default Settings is written to the store by [set]
    like any other, yet a new manager initialized over the same file does
    not load it: its [get] for that key yields [None]. *)
Theorem X15_unrecognized_key_not_reloaded `{!StoreLaws S}
    (self self' : manager) store store' opened key value :
  ¬ recognized AVAILABLE_FONTS key →
  store_of self = Some store →
  set key value self = (self', Ok tt) →
  store_of self' = Some store' →
  store_reopen store' = Ok opened →
  store_exists opened key = Ok true
  ∧ store_get opened key = Ok (PDict {[ "value" := value ]})
  ∧ snd (get key PNone (fst (initialize (store_reopen store') (construct None))))
    = Ok PNone.
Proof.
  intros Hkey Hs Hset Hs' Hopen.
  destruct (set_succeeded _ _ _ _ _ Hs Hset) as (written & Hput & Hw & _).
  rewrite Hw in Hs'. injection Hs' as ->.
  destruct (reopen_synced _ _ _ _ _ Hput Hopen key) as [-> ->].
  split; [by eapply put_exists|]. split; [by eapply put_get|].
  rewrite Hopen.
  assert (odict.get key DEFAULTS = None) as Hd.
  { destruct (odict.get key DEFAULTS) eqn:Hd; [|done].
    exfalso. apply Hkey, recognized_default. eauto. }
  rewrite get_miss.
  - cbn [snd is_None]. by rewrite Hd.
  - rewrite initialize_other by done. rewrite construct_fresh.
    cbn [SettingsManager._settings]. by rewrite odict_get_copy.
Qed.

(** X16. Record and store stay in step: after an [initialize()] that
    returned, every recognized entry is what loading from the open store
    gives, each [set] that returns normally keeps it so, and on such a
    manager running the loading loop again changes nothing. *)
Theorem X16_record_in_step_with_store `{!StoreLaws S} :
  (∀ store (self : manager),
     snd (initialize (Ok store) self) = Ok tt →
     in_sync AVAILABLE_FONTS (fst (initialize (Ok store) self)))
  ∧ (∀ (self : manager) key value,
       in_sync AVAILABLE_FONTS self →
       snd (set key value self) = Ok tt →
       in_sync AVAILABLE_FONTS (fst (set key value self)))
  ∧ (∀ self : manager,
       in_sync AVAILABLE_FONTS self →
       SettingsManager._load_settings AVAILABLE_FONTS self = (self, Ok tt)).
Proof.
  split; [|split].
  - intros store self Hret. exists store. split; [|split].
    + by destruct (initialize_fields AVAILABLE_FONTS store self).
    + by apply (initialize_returns AVAILABLE_FONTS store self).
    + intros k dv Hdv. by apply initialize_lookup.
  - intros self key value (store & Hs & Hstore & Hsync) Hok.
    destruct (set key value self) as [self' outcome] eqn:Hset.
    simpl in Hok. subst outcome. cbn [fst].
    destruct (set_succeeded _ _ _ _ _ Hs Hset) as (store' & Hput & Hs' & Hmem).
    exists store'. split; [done|]. split.
    + intros k _. by eapply put_answers.
    + intros k dv Hdv.
      rewrite Hmem, (loaded_value_after_put _ _ _ _ _ _ Hput).
      case_decide as Hk.
      * subst k. apply lookup_insert_eq.
      * rewrite lookup_insert_ne by done. by apply Hsync.
  - intros self (store & Hs & Hstore & Hsync).
    unfold SettingsManager._load_settings. rewrite Hs.
    assert (snd (SettingsManager.for_each (SettingsManager.load_one store)
                   DEFAULTS self) = Ok tt) as Hret by by apply loop_returns.
    rewrite (surjective_pairing
               (SettingsManager.for_each (SettingsManager.load_one store)
                  DEFAULTS self)).
    rewrite Hret. f_equal.
    destruct (loop_fields store DEFAULTS self) as [Hi Hst]. cbv zeta in Hi, Hst.
    apply manager_eq; [done..|].
    apply map_eq. intros k.
    destruct (odict.get k DEFAULTS) as [dv|] eqn:Hdv.
    + rewrite (loop_lookup store _ self k dv Hret);
        [by rewrite (Hsync k dv Hdv) | apply defaults_NoDup | done].
    + apply loop_other. rewrite odict_get_keys, Hdv. by intros [? ?].
Qed.

End persistence.

(** ** The further properties at concrete inputs *)

Lemma X1_fonts_directory_choice_witness :
  os_getcwd crowded_host = Ok "/app"
  ∧ get_fonts_directory crowded_host = Ok (Some "/app/fonts").
Proof.
  split; [reflexivity|].
  destruct (X1_fonts_directory_choice crowded_host "/app" eq_refl) as (Hhere & _).
  exact (Hhere eq_refl).
Defined.

Lemma X3_catalog_entries_witness :
  scan_available_fonts crowded_host
  = Ok [ ("Inter", "/app/fonts/Inter.otf"); ("Lato", "/app/fonts/Lato_Regular.ttf") ]
  ∧ NoDup (odict.keys
             [ ("Inter", "/app/fonts/Inter.otf");
               ("Lato", "/app/fonts/Lato_Regular.ttf") ]).
Proof.
  assert (scan_available_fonts crowded_host
          = Ok [ ("Inter", "/app/fonts/Inter.otf");
                 ("Lato", "/app/fonts/Lato_Regular.ttf") ]) as Hscan
    by (vm_compute; reflexivity).
  split; [exact Hscan|].
  exact (proj1 (X3_catalog_entries crowded_host _ Hscan)).
Defined.

Lemma X4_scanned_fonts_resolve_witness :
  get_fonts_directory crowded_host = Ok (Some "/app/fonts")
  ∧ ∃ found,
      get_font_path
        [ ("Inter", "/app/fonts/Inter.otf"); ("Lato", "/app/fonts/Lato_Regular.ttf") ]
        (display_name_of "/app/fonts/Inter-Regular.ttf") = Some found
      ∧ display_name_of found = display_name_of "/app/fonts/Inter-Regular.ttf"
      ∧ found ∈ font_matches crowded_host "/app/fonts".
Proof.
  split; [reflexivity|].
  destruct (X4_scanned_fonts_resolve crowded_host "/app/fonts"
              [ ("Inter", "/app/fonts/Inter.otf");
                ("Lato", "/app/fonts/Lato_Regular.ttf") ])
    as [Hfound _]; [reflexivity | vm_compute; reflexivity |].
  apply (Hfound "*.ttf"); [by_decide | by_decide].
Defined.

Lemma X5_last_scanned_wins_witness :
  font_matches crowded_host "/app/fonts"
  = [ "/app/fonts/Inter-Regular.ttf"; "/app/fonts/Lato_Regular.ttf";
      "/app/fonts/Inter.otf" ]
  ∧ get_font_path
      [ ("Inter", "/app/fonts/Inter.otf"); ("Lato", "/app/fonts/Lato_Regular.ttf") ]
      (display_name_of "/app/fonts/Inter.otf")
    = Some "/app/fonts/Inter.otf".
Proof.
  split; [vm_compute; reflexivity|].
  apply (X5_last_scanned_wins crowded_host "/app/fonts" _
           [ "/app/fonts/Inter-Regular.ttf"; "/app/fonts/Lato_Regular.ttf" ]
           "/app/fonts/Inter.otf" []).
  - reflexivity.
  - vm_compute; reflexivity.
  - vm_compute; reflexivity.
  - intros later Hin. by apply elem_of_nil in Hin.
Defined.

Lemma X7_default_font_resolves_witness :
  load_module crowded_host
  = Ok ([ ("Inter", "/app/fonts/Inter.otf"); ("Lato", "/app/fonts/Lato_Regular.ttf") ],
        DEFAULT_SETTINGS
          [ ("Inter", "/app/fonts/Inter.otf");
            ("Lato", "/app/fonts/Lato_Regular.ttf") ])
  ∧ ∃ name path,
      odict.get "font_name"
        (DEFAULT_SETTINGS
           [ ("Inter", "/app/fonts/Inter.otf");
             ("Lato", "/app/fonts/Lato_Regular.ttf") ])
      = Some (PStr name)
      ∧ get_font_path
          [ ("Inter", "/app/fonts/Inter.otf");
            ("Lato", "/app/fonts/Lato_Regular.ttf") ] name
        = Some path
      ∧ display_name_of path = name.
Proof.
  assert (load_module crowded_host
          = Ok ([ ("Inter", "/app/fonts/Inter.otf");
                  ("Lato", "/app/fonts/Lato_Regular.ttf") ],
                DEFAULT_SETTINGS
                  [ ("Inter", "/app/fonts/Inter.otf");
                    ("Lato", "/app/fonts/Lato_Regular.ttf") ])) as Hload
    by (vm_compute; reflexivity).
  split; [exact Hload|].
  apply (proj2 (X7_default_font_resolves crowded_host _ _ Hload)).
  discriminate.
Defined.

Lemma X8_settings_directory_posix_witness :
  SettingsManager._get_settings_path (linux_system ∅)
  = Ok "/home/ada/.config/WhoaScope/settings.json"
  ∧ ∃ dir, SettingsManager.get_settings_directory (linux_system ∅) = Ok dir
           ∧ os_makedirs (linux_system ∅) dir = None
           ∧ "/home/ada/.config/WhoaScope/settings.json" = dir +:+ "/settings.json"
           ∧ os_path.basename "/home/ada/.config/WhoaScope/settings.json"
             = "settings.json".
Proof.
  split; [vm_compute; reflexivity|].
  apply (X8_settings_directory_posix (linux_system ∅));
    [reflexivity | reflexivity | vm_compute; reflexivity].
Defined.

Lemma X10_default_argument_unused_witness :
  recognized [] "font_scale"
  ∧ ∃ v, SettingsManager._settings
           (run_all [] [ SettingsManager.SetFontScale (PFloat float_one);
                         SettingsManager.Initialize (Ok edited_store) ]
                    fresh_manager) !! "font_scale" = Some v
         ∧ ∀ dflt,
             SettingsManager.get [] "font_scale" dflt
               (run_all [] [ SettingsManager.SetFontScale (PFloat float_one);
                             SettingsManager.Initialize (Ok edited_store) ]
                        fresh_manager)
             = (run_all [] [ SettingsManager.SetFontScale (PFloat float_one);
                             SettingsManager.Initialize (Ok edited_store) ]
                        fresh_manager, Ok v).
Proof.
  split; [by_decide|].
  apply (X10_default_argument_unused (S:=JsonStore.t) []
           [ SettingsManager.SetFontScale (PFloat float_one);
             SettingsManager.Initialize (Ok edited_store) ] "font_scale").
  by_decide.
Defined.

Lemma X14_failed_initialize_witness :
  snd (SettingsManager.initialize_in [] (linux_system ∅)
         (λ _, Ok non_object_store) fresh_manager) = Raise TypeError
  ∧ ∃ store before key dv later,
      DEFAULT_SETTINGS [] = (before ++ (key, dv) :: later)%list
      ∧ store_exists store key = Raise TypeError
      ∧ SettingsManager._store
          (fst (SettingsManager.initialize_in [] (linux_system ∅)
                  (λ _, Ok non_object_store) fresh_manager)) = Some store.
Proof.
  assert (snd (SettingsManager.initialize_in [] (linux_system ∅)
                 (λ _, Ok non_object_store) fresh_manager) = Raise TypeError)
    as Hraise by (vm_compute; reflexivity).
  split; [exact Hraise|].
  destruct (X14_failed_initialize (S:=JsonStore.t) [] (linux_system ∅)
              (λ _, Ok non_object_store) fresh_manager TypeError Hraise)
    as [[_ [Hpath|(path & _ & Hopen)]]
       |(path & store & before & key & dv & later & _ & _ & Hsplit & Hkey & _ & Hs & _)].
  - discriminate Hpath.
  - discriminate Hopen.
  - exists store, before, key, dv, later. repeat split; assumption.
Defined.

Lemma X15_unrecognized_key_not_reloaded_witness :
  let self := initialized_manager empty_store in
  let store' := fst (JsonStore.put empty_store "theme"
                       {[ "value" := PStr "dark" ]}) in
  ¬ recognized [] "theme"
  ∧ snd (SettingsManager.set "theme" (PStr "dark") self) = Ok tt
  ∧ store_get store' "theme" = Ok (PDict {[ "value" := PStr "dark" ]})
  ∧ snd (SettingsManager.get [] "theme" PNone
           (fst (SettingsManager.initialize [] (store_reopen store') fresh_manager)))
    = Ok PNone.
Proof.
  intros self store'.
  assert (¬ recognized [] "theme") as Hkey.
  { unfold recognized. apply (bool_decide_unpack _). vm_compute. exact I. }
  split; [exact Hkey|]. split; [vm_compute; reflexivity|].
  destruct (X15_unrecognized_key_not_reloaded [] self
              (fst (SettingsManager.set "theme" (PStr "dark") self))
              empty_store store'
              {| JsonStore._data := JsonStore.on_disk store';
                 JsonStore.on_disk := JsonStore.on_disk store';
                 JsonStore.writable := true |}
              "theme" (PStr "dark"))
    as (_ & Hget & Hnone);
    [exact Hkey | vm_compute; reflexivity | vm_compute; reflexivity
    | vm_compute; reflexivity | vm_compute; reflexivity |].
  split; [vm_compute; reflexivity | exact Hnone].
Defined.

Lemma X16_record_in_step_with_store_witness :
  SettingsManager._load_settings [] (initialized_manager edited_store)
  = (initialized_manager edited_store, Ok tt).
Proof.
  destruct (X16_record_in_step_with_store (S:=JsonStore.t) [])
    as (Hinit & _ & Hload).
  apply Hload, Hinit. vm_compute; reflexivity.
Defined.
